(** * vlc-fun: the master/slave playback synchroniser of [sync.py]

    A shallow embedding of [sync.py].  Python floats are IEEE binary64
    numbers ([PrimFloat.float]); JSON payloads are Python values; the
    network, the clock and the two string-parsing builtins are the
    fields of an environment class; every function that talks to the
    network is a computation that threads the world, may raise a Python
    exception and writes the events it causes (requests and printed
    lines) to a trace. *)

From Stdlib Require Import ZArith List Bool Ascii String Floats Lia.
From stdpp Require Import gmap strings list.
Import ListNotations.

Set Warnings "-register-all".

Local Open Scope Z_scope.

(** ** Python values and builtins *)

(** What [r.json()] can return. *)
Inductive pyval : Type :=
| PNone
| PBool (b : bool)
| PInt (z : Z)
| PFloat (f : float)
| PStr (s : string)
| PList (l : list pyval)
| PDict (d : gmap string pyval).

(** The exceptions the modelled code can raise. *)
Inductive exn : Type :=
| IndexError
| ValueError
| OverflowError
| AttributeError
| TypeError.

Inductive outcome (A : Type) : Type :=
| Ok (a : A)
| Raise (e : exn).
Arguments Ok {A} a.
Arguments Raise {A} e.

Definition obind {A B} (c : outcome A) (k : A -> outcome B) : outcome B :=
  match c with
  | Ok a => k a
  | Raise e => Raise e
  end.

(** A list comprehension whose element expression can raise. *)
Fixpoint omap {A B} (f : A -> outcome B) (l : list A) : outcome (list B) :=
  match l with
  | [] => Ok []
  | x :: r => obind (f x) (fun y => obind (omap f r) (fun ys => Ok (y :: ys)))
  end.

(** [l[i]] *)
Definition py_index {A} (l : list A) (i : nat) : outcome A :=
  match l !! i with
  | Some x => Ok x
  | None => Raise IndexError
  end.

(** [d.get(k)] *)
Definition dict_get (d : gmap string pyval) (k : string) : pyval :=
  default PNone (d !! k).

Definition is_not_none (v : pyval) : bool :=
  match v with
  | PNone => false
  | _ => true
  end.

(** Truth value of an object in an [if]. *)
Definition py_truthy (v : pyval) : bool :=
  match v with
  | PNone => false
  | PBool b => b
  | PInt z => negb (z =? 0)
  | PFloat f => negb (PrimFloat.eqb f 0%float)
  | PStr s => negb (String.eqb s EmptyString)
  | PList l => match l with [] => false | _ => true end
  | PDict d => negb (bool_decide (d = ∅))
  end.

(** [float(n)] for an [int]: round to nearest even, [OverflowError] when
    the rounded value does not fit. *)
Definition float_of_Z (z : Z) : outcome float :=
  match binary_normalize prec emax z 0 false with
  | S754_infinity _ => Raise OverflowError
  | sf => Ok (SF2Prim sf)
  end.

(** The integer part of a finite binary64 number, towards zero. *)
Definition sf_trunc (s : bool) (m : positive) (e : Z) : Z :=
  let a := match e with
           | Z0 => Zpos m
           | Zpos p => Zpos m * 2 ^ Zpos p
           | Zneg p => Zpos m / 2 ^ Zpos p
           end in
  if s then - a else a.

(** The integer part of a finite binary64 number, towards minus infinity. *)
Definition sf_floor (s : bool) (m : positive) (e : Z) : Z :=
  match e with
  | Z0 => if s then Zneg m else Zpos m
  | Zpos p => (if s then Zneg m else Zpos m) * 2 ^ Zpos p
  | Zneg p => (if s then Zneg m else Zpos m) / 2 ^ Zpos p
  end.

(** [int(x)] for a [float]. *)
Definition py_int (x : float) : outcome Z :=
  match Prim2SF x with
  | S754_zero _ => Ok 0
  | S754_finite s m e => Ok (sf_trunc s m e)
  | S754_infinity _ => Raise OverflowError
  | S754_nan => Raise ValueError
  end.

(** [math.floor(x)], for stating what [int] discards. *)
Definition py_floor (x : float) : outcome Z :=
  match Prim2SF x with
  | S754_zero _ => Ok 0
  | S754_finite s m e => Ok (sf_floor s m e)
  | S754_infinity _ => Raise OverflowError
  | S754_nan => Raise ValueError
  end.

(** [max(a, b)]: the first argument unless the second is greater. *)
Definition py_max (a b : float) : float :=
  if PrimFloat.ltb a b then b else a.

(** [int(max(time_seconds + delta, 0.0))] *)
Definition seek_target (time_seconds delta : float) : outcome Z :=
  py_int (py_max (time_seconds + delta) 0)%float.

(** A float that is a real number: neither an infinity nor a NaN. *)
Definition is_real (x : float) : bool :=
  match Prim2SF x with
  | S754_zero _ | S754_finite _ _ _ => true
  | _ => false
  end.

Definition not_nan (x : float) : bool :=
  match Prim2SF x with
  | S754_nan => false
  | _ => true
  end.

(** [s.split(":", 1)] when [":" in s]. *)
Fixpoint split_colon (s : string) : option (string * string) :=
  match s with
  | EmptyString => None
  | String c r =>
      if Ascii.eqb c ":"%char then Some (EmptyString, r)
      else match split_colon r with
           | Some (a, b) => Some (String c a, b)
           | None => None
           end
  end.

(** ** Events *)

(** The lines the program prints, with the values they show. *)
Inductive msg : Type :=
| ErrorStatus (host : string) (port : Z)
| ErrorSeek (host : string) (port : Z)
| InfoDetecting
| WarnMasterTime
| MasterTimeRtt (master_time rtt : float)
| RttLine (host : string) (port : Z) (rtt : float)
| DelayNoPlayback (host : string) (port : Z)
| DelayLine (host : string) (port : Z) (master_time slave_time drift : float)
| WarnMasterTimeSync
| MasterPlayback (master_time : float)
| SlaveSkipping (host : string) (port : Z) (drift threshold : float)
| SlaveSeek (host : string) (port : Z) (target : Z) (drift : float)
| SlaveSeekFailed (host : string) (port : Z).

Inductive event : Type :=
| EvStatus (host : string) (port : Z)
| EvSeek (host : string) (port : Z) (val : Z)
| EvSleep (seconds : float)
| EvPrint (m : msg).

Definition is_request (e : event) : bool :=
  match e with
  | EvStatus _ _ | EvSeek _ _ _ => true
  | _ => false
  end.

Definition is_seek (e : event) : bool :=
  match e with
  | EvSeek _ _ _ => true
  | _ => false
  end.

(** The requests of a trace, in the order they were sent. *)
Definition requests (tr : list event) : list event := List.filter is_request tr.
Definition seeks (tr : list event) : list event := List.filter is_seek tr.

Definition status_request (hp : string * Z) : event := EvStatus (fst hp) (snd hp).
Definition seek_request (val : Z) (hp : string * Z) : event :=
  EvSeek (fst hp) (snd hp) val.

(** The endpoint in slot [i]. *)
Definition endpoint_at (parsed : list (string * Z)) (i : nat) : string * Z :=
  nth i parsed (EmptyString, 0).

(** The indices of the slaves among [n] endpoints: [range(1, n)]. *)
Definition slave_indices (n : nat) : list nat := seq 1 (n - 1).

(** ** The environment *)

(** The network, the clock, and the builtins [int] and [float] on
    strings. [http_status] answers [None] when [requests.get],
    [raise_for_status] or [r.json()] raises; [http_seek] answers whether
    the seek request went through; [sleep] is [time.sleep], which raises
    on a length it does not accept. *)
Class PyEnv : Type := {
  World : Type;
  http_status : string -> Z -> string -> World -> option pyval * World;
  http_seek : string -> Z -> string -> Z -> World -> bool * World;
  perf_counter : World -> float * World;
  sleep : float -> World -> outcome unit * World;
  int_of_str : string -> option Z;
  float_of_str : string -> option float
}.

(** ** CONFIGURATION *)

Definition VLC_PASSWORD : string := "secretpw".
Definition DEFAULT_PORT : Z := 8080.

Section Program.

Context `{PyEnv}.

(** A computation: the outcome, the world after it, the events it caused. *)
Definition M (A : Type) : Type := World -> outcome A * World * list event.

Definition ret {A} (a : A) : M A := fun w => (Ok a, w, []).

Definition bind {A B} (c : M A) (k : A -> M B) : M B :=
  fun w =>
    match c w with
    | (Ok a, w1, t1) =>
        match k a w1 with
        | (r, w2, t2) => (r, w2, t1 ++ t2)
        end
    | (Raise e, w1, t1) => (Raise e, w1, t1)
    end.

Definition lift {A} (o : outcome A) : M A := fun w => (o, w, []).

Definition emit (e : event) : M unit := fun w => (Ok tt, w, [e]).

Definition print (m : msg) : M unit := emit (EvPrint m).

Definition result_of {A} (x : outcome A * World * list event) : outcome A :=
  fst (fst x).
Definition world_of {A} (x : outcome A * World * list event) : World :=
  snd (fst x).
Definition trace_of {A} (x : outcome A * World * list event) : list event :=
  snd x.

Notation "x <- c ;; k" := (bind c (fun x => k))
  (at level 100, c at next level, right associativity).
Notation "c ;;; k" := (bind c (fun _ => k))
  (at level 100, right associativity).

(** [[f(x) for x in l]] when [f] has effects. *)
Fixpoint mapM {A B} (f : A -> M B) (l : list A) : M (list B) :=
  match l with
  | [] => ret []
  | x :: r => y <- f x ;; ys <- mapM f r ;; ret (y :: ys)
  end.

(** [for i in l: s = body(i, s)] *)
Fixpoint foldM {A S} (body : A -> S -> M S) (l : list A) (s : S) : M S :=
  match l with
  | [] => ret s
  | x :: r => s1 <- body x s ;; foldM body r s1
  end.

(** A computation that sends no request and leaves the world alone. *)
Definition quiet {A} (c : M A) : Prop :=
  forall w, requests (trace_of (c w)) = [] /\ world_of (c w) = w.

(** ** HELPERS *)

Definition parse_host_port (host_str : string) : outcome (string * Z) :=
  match split_colon host_str with
  | Some (host, port_str) =>
      match int_of_str port_str with
      | Some port => Ok (host, port)
      | None => Raise ValueError
      end
  | None => Ok (host_str, DEFAULT_PORT)
  end.

Definition get_vlc_status (host : string) (port : Z) (password : string) : M pyval :=
  fun w =>
    match http_status host port password w with
    | (Some v, w1) => (Ok v, w1, [EvStatus host port])
    | (None, w1) => (Ok PNone, w1, [EvStatus host port; EvPrint (ErrorStatus host port)])
    end.

Definition timed_status_request (host : string) (port : Z) (password : string)
  : M (pyval * float) :=
  t0 <- (fun w => let '(t, w1) := perf_counter w in (Ok t, w1, [])) ;;
  status <- get_vlc_status host port password ;;
  t1 <- (fun w => let '(t, w1) := perf_counter w in (Ok t, w1, [])) ;;
  ret (status, ((t1 - t0) * 1000)%float).

(** [float(v)] *)
Definition py_float (v : pyval) : outcome float :=
  match v with
  | PNone => Raise TypeError
  | PBool b => Ok (if b then 1%float else 0%float)
  | PInt z => float_of_Z z
  | PFloat f => Ok f
  | PStr s => match float_of_str s with
              | Some f => Ok f
              | None => Raise ValueError
              end
  | PList _ => Raise TypeError
  | PDict _ => Raise TypeError
  end.

(** The body of the first [try]: [float(pos) * float(length)]. *)
Definition position_times_length (pos length : pyval) : outcome float :=
  obind (py_float pos) (fun p =>
  obind (py_float length) (fun l => Ok (p * l)%float)).

(** What follows the first [if]: the integer [time] field. *)
Definition time_field (d : gmap string pyval) : option float :=
  let t := dict_get d "time" in
  if is_not_none t then
    match py_float t with
    | Ok f => Some f
    | Raise _ => None
    end
  else None.

Definition extract_precise_time (status : pyval) : outcome (option float) :=
  match status with
  | PNone => Ok None
  | PDict d =>
      let pos := dict_get d "position" in
      let length := dict_get d "length" in
      if is_not_none pos && py_truthy length then
        match position_times_length pos length with
        | Ok r => Ok (Some r)
        | Raise _ => Ok (time_field d)
        end
      else Ok (time_field d)
  | _ => Raise AttributeError
  end.

Definition seek_vlc_to_time (host : string) (port : Z) (password : string)
  (time_seconds delta : float) : M (bool * Z) :=
  let delta := 0%float in
  target <- lift (seek_target time_seconds delta) ;;
  ok <- (fun w => let '(b, w1) := http_seek host port password target w in
                  (Ok b, w1, [EvSeek host port target])) ;;
  if ok then ret (true, target)
  else print (ErrorSeek host port) ;;; ret (false, target).

(** ** DELAY DETECTION *)

(** One turn of the loop over the slaves in [detect_delays]. *)
Definition detect_slave (parsed : list (string * Z)) (statuses : list pyval)
  (rtt_ms : list float) (master_time : float) (i : nat) (delays : list float)
  : M (list float) :=
  hp <- lift (py_index parsed i) ;;
  let '(host, port) := hp in
  status <- lift (py_index statuses i) ;;
  slave_time <- lift (extract_precise_time status) ;;
  rtt <- lift (py_index rtt_ms i) ;;
  print (RttLine host port rtt) ;;;
  match slave_time with
  | None => print (DelayNoPlayback host port) ;;; ret delays
  | Some slave_time =>
      let drift := (master_time - slave_time)%float in
      print (DelayLine host port master_time slave_time drift) ;;;
      ret (<[i := drift]> delays)
  end.

(** The [with ThreadPoolExecutor] block. The pool's requests are taken
    in the order they are submitted; a result lands in the slot of its
    endpoint whatever the order of completion. *)
Definition poll_all (parsed : list (string * Z)) : M (list (pyval * float)) :=
  mapM (fun hp => timed_status_request (fst hp) (snd hp) VLC_PASSWORD) parsed.

Definition detect_delays (host_strs : list string)
  : M (option (list float * list float)) :=
  match host_strs with
  | [] => ret None
  | _ =>
      parsed <- lift (omap parse_host_port host_strs) ;;
      print InfoDetecting ;;;
      results <- poll_all parsed ;;
      let statuses := map fst results in
      let rtt_ms := map snd results in
      status0 <- lift (py_index statuses 0) ;;
      master_time <- lift (extract_precise_time status0) ;;
      match master_time with
      | None => print WarnMasterTime ;;; ret None
      | Some master_time =>
          rtt0 <- lift (py_index rtt_ms 0) ;;
          print (MasterTimeRtt master_time rtt0) ;;;
          delays <- foldM (detect_slave parsed statuses rtt_ms master_time)
                          (slave_indices (length parsed))
                          (repeat 0%float (length parsed)) ;;
          ret (Some (delays, rtt_ms))
      end
  end.

(** ** SYNC LOGIC *)

(** [1e-6] as Python reads it. *)
Definition FIRST_RUN_EPS : float := 0x1.0c6f7a0b5ed8dp-20%float.

Definition first_run (delays : list float) : bool :=
  forallb (fun d => (PrimFloat.abs d <? FIRST_RUN_EPS)%float) delays.

(** The test that skips a slave. *)
Definition skip_seek (first_run : bool) (drift drift_threshold : float) : bool :=
  negb first_run && (PrimFloat.abs drift <? drift_threshold)%float.

(** One turn of the loop over the slaves in [sync_once]. *)
Definition sync_slave (parsed : list (string * Z)) (delays : list float)
  (drift_threshold master_time : float) (first_run : bool) (i : nat) (_ : unit)
  : M unit :=
  hp <- lift (py_index parsed i) ;;
  let '(host, port) := hp in
  drift <- lift (py_index delays i) ;;
  if skip_seek first_run drift drift_threshold then
    print (SlaveSkipping host port drift drift_threshold)
  else
    r <- seek_vlc_to_time host port VLC_PASSWORD master_time drift ;;
    let '(ok, target) := r in
    if ok then print (SlaveSeek host port target drift)
    else print (SlaveSeekFailed host port).

Definition sync_once (host_strs : list string) (delays : list float)
  (drift_threshold : float) : M (list float) :=
  parsed <- lift (omap parse_host_port host_strs) ;;
  master <- lift (py_index parsed 0) ;;
  let '(master_host, master_port) := master in
  status <- get_vlc_status master_host master_port VLC_PASSWORD ;;
  master_time <- lift (extract_precise_time status) ;;
  match master_time with
  | None => print WarnMasterTimeSync ;;; ret delays
  | Some master_time =>
      print (MasterPlayback master_time) ;;;
      let first_run := first_run delays in
      foldM (sync_slave parsed delays drift_threshold master_time first_run)
            (slave_indices (length parsed)) tt ;;;
      r <- detect_delays host_strs ;;
      match r with
      | Some (new_delays, rtt_ms) => ret new_delays
      | None => ret delays
      end
  end.

(** ** MAIN *)

(** [[0.0] * len(hosts)] *)
Definition initial_delays (hosts : list string) : list float :=
  repeat 0%float (length hosts).

(** The [while True] loop, stopped after [n] turns. *)
Fixpoint sync_loop (n : nat) (hosts : list string) (delays : list float)
  (drift_threshold interval : float) : M (list float) :=
  match n with
  | O => ret delays
  | S n' =>
      delays1 <- sync_once hosts delays drift_threshold ;;
      (fun w => let '(r, w1) := sleep interval w in (r, w1, [EvSleep interval])) ;;;
      sync_loop n' hosts delays1 drift_threshold interval
  end.

(** [main] after the arguments are parsed: one cycle without
    [--interval], the loop with it. *)
Definition main (hosts : list string) (drift_threshold : float)
  (interval : option float) (n : nat) : M (list float) :=
  let delays := initial_delays hosts in
  match interval with
  | None => sync_once hosts delays drift_threshold
  | Some s => sync_loop n hosts delays drift_threshold s
  end.

End Program.

(** ** Vocabulary of the statements *)

(** The slaves for which the loop of [sync_once] does not [continue]. *)
Definition corrected_slaves (delays : list float) (drift_threshold : float)
  (n : nat) : list nat :=
  List.filter
    (fun i => negb (skip_seek (first_run delays) (nth i delays 0%float) drift_threshold))
    (slave_indices n).

(** The invariant of the DriftState for the endpoints [host_strs]. *)
Definition drift_state_ok (host_strs : list string) (delays : list float) : Prop :=
  length delays = length host_strs /\ delays !! 0%nat = Some 0%float.

Definition same_endpoint (a b : string * Z) : bool :=
  String.eqb (fst a) (fst b) && (snd a =? snd b).

(** No seek of the trace goes to the endpoint [hp]. *)
Definition no_seek_to (hp : string * Z) (tr : list event) : bool :=
  forallb (fun e => match e with
                    | EvSeek h p _ => negb (same_endpoint (h, p) hp)
                    | _ => true
                    end) tr.

(** Every seek of the trace comes after a status request to each of the
    endpoints; [polled] are the endpoints polled so far. *)
Fixpoint polled_before_seek (endpoints polled : list (string * Z))
  (tr : list event) : bool :=
  match tr with
  | [] => true
  | EvStatus h p :: r => polled_before_seek endpoints ((h, p) :: polled) r
  | EvSeek _ _ _ :: r =>
      forallb (fun hp => existsb (same_endpoint hp) polled) endpoints
      && polled_before_seek endpoints polled r
  | _ :: r => polled_before_seek endpoints polled r
  end.

(** [":" in s] *)
Fixpoint has_colon (s : string) : bool :=
  match s with
  | EmptyString => false
  | String c r => Ascii.eqb c ":"%char || has_colon r
  end.

(** [host + ":" + port_str] *)
Definition host_colon_port (host port_str : string) : string :=
  String.append host (String ":"%char port_str).

(** A status on which [.get] exists or is not called: a JSON object or
    [None]. *)
Definition is_object_or_none (v : pyval) : bool :=
  match v with
  | PNone | PDict _ => true
  | _ => false
  end.

Definition is_sleep (e : event) : bool :=
  match e with
  | EvSleep _ => true
  | _ => false
  end.

(** What a cycle over [endpoints] may do: status requests to listed
    endpoints, seeks with a non-negative target to the slaves among
    them, printed lines; it does not sleep. *)
Definition cycle_event (endpoints : list (string * Z)) (e : event) : Prop :=
  match e with
  | EvStatus h p => In (h, p) endpoints
  | EvSeek h p v => In (h, p) (tl endpoints) /\ 0 <= v
  | EvSleep _ => False
  | EvPrint _ => True
  end.

Section EnvVocabulary.

Context `{PyEnv}.

(** Every event the computation causes satisfies [P]. *)
Definition emits {A} (P : event -> Prop) (c : M A) : Prop :=
  forall w, List.Forall P (trace_of (c w)).

(** From a world in [good], the computation returns a value in [Q] and
    leaves a world in [good]. *)
Definition returns {A} (good : World -> Prop) (Q : A -> Prop) (c : M A) : Prop :=
  forall w, good w ->
    exists a, result_of (c w) = Ok a /\ Q a /\ good (world_of (c w)).

(** A payload whose time, if it has one, is a real number. *)
Definition real_time (v : pyval) : Prop :=
  is_object_or_none v = true /\
  forall t, extract_precise_time v = Ok (Some t) -> is_real t = true.

(** Worlds in which the players answer with JSON objects (or not at
    all) that carry real times, and which the network and the clock
    keep that way. *)
Record well_behaved (good : World -> Prop) : Prop := {
  wb_status : forall host port password w, good w ->
    good (snd (http_status host port password w)) /\
    forall v, fst (http_status host port password w) = Some v -> real_time v;
  wb_seek : forall host port password val w, good w ->
    good (snd (http_seek host port password val w));
  wb_clock : forall w, good w -> good (snd (perf_counter w))
}.

End EnvVocabulary.

(** ** A scripted environment

    Players that answer every status request with a fixed payload and
    every seek with a fixed verdict; the clock advances by one on each
    reading. *)
Module Sim.

Record world : Type := {
  status_of : string -> Z -> option pyval;
  seek_ok : string -> Z -> bool;
  clock : float
}.

Definition digit_value (c : ascii) : option Z :=
  let n := Z.of_nat (nat_of_ascii c) in
  if (48 <=? n) && (n <=? 57) then Some (n - 48) else None.

Fixpoint digits_value (s : string) (acc : Z) : option Z :=
  match s with
  | EmptyString => Some acc
  | String c r =>
      match digit_value c with
      | Some d => digits_value r (10 * acc + d)
      | None => None
      end
  end.

(** [int(s)] on a run of ASCII digits; nothing else is recognised. *)
Definition decimal (s : string) : option Z :=
  match s with
  | EmptyString => None
  | _ => digits_value s 0
  end.

(** [float(s)] on a run of ASCII digits; nothing else is recognised. *)
Definition decimal_float (s : string) : option float :=
  match decimal s with
  | Some z => match float_of_Z z with
              | Ok f => Some f
              | Raise _ => None
              end
  | None => None
  end.

#[export] Instance env : PyEnv := {|
  World := world;
  http_status := fun host port _ w => (status_of w host port, w);
  http_seek := fun host port _ _ w => (seek_ok w host port, w);
  perf_counter := fun w =>
    (clock w, {| status_of := status_of w; seek_ok := seek_ok w;
                 clock := (clock w + 1)%float |});
  sleep := fun s w =>
    if (s <? 0)%float || negb (s =? s)%float then (Raise ValueError, w)
    else (Ok tt, {| status_of := status_of w; seek_ok := seek_ok w;
                    clock := (clock w + s)%float |});
  int_of_str := decimal;
  float_of_str := decimal_float
|}.

(** A status payload from its fields. *)
Definition payload (fields : list (string * pyval)) : pyval :=
  PDict (list_to_map fields).

Definition master_payload : pyval :=
  payload [("position", PFloat 0.25); ("length", PInt 100)].

(** The master at ["m"] plays at [position * length = 25.0]; the slave
    at ["s"] reports [time = 20]; the slave at ["dead"] cannot be
    reached. *)
Definition two_players : @World env := {|
  status_of := fun host _ =>
    if String.eqb host "m" then Some master_payload
    else if String.eqb host "s" then Some (payload [("time", PInt 20)])
    else None;
  seek_ok := fun host _ => negb (String.eqb host "dead");
  clock := 0
|}.

Definition hosts : list string := ["m"; "s"].
Definition endpoints : list (string * Z) := [("m", 8080); ("s", 8080)].

(** The same master with a slave that cannot be reached. *)
Definition hosts_dead : list string := ["m"; "dead"].
Definition endpoints_dead : list (string * Z) := [("m", 8080); ("dead", 8080)].

(** No player can be reached. *)
Definition nobody : @World env := {|
  status_of := fun _ _ => None;
  seek_ok := fun _ _ => false;
  clock := 0
|}.

(** The master reports a length that is not a number. *)
Definition nan_payload : pyval :=
  payload [("position", PFloat 0.5); ("length", PFloat nan); ("time", PInt 42)].

Definition nan_master : @World env := {|
  status_of := fun host _ =>
    if String.eqb host "m" then Some nan_payload
    else Some (payload [("time", PInt 20)]);
  seek_ok := fun _ _ => true;
  clock := 0
|}.

(** The slave answers with a JSON array. *)
Definition array_slave : @World env := {|
  status_of := fun host _ =>
    if String.eqb host "m" then Some master_payload
    else Some (PList [PInt 20]);
  seek_ok := fun _ _ => true;
  clock := 0
|}.

(** The worlds whose players answer as in [two_players]. *)
Definition plays_like_two_players (w : @World env) : Prop :=
  status_of w = status_of two_players.

End Sim.

(** * Properties *)

(** ** Floats *)

Lemma Prim2SF_zero : Prim2SF 0%float = S754_zero false.
Proof. reflexivity. Qed.

Lemma sf_trunc_sign (s : bool) (m : positive) (e : Z) :
  if s then sf_trunc s m e <= 0 else 0 <= sf_trunc s m e.
Proof.
  assert (Ha : 0 <= match e with
                    | Z0 => Zpos m
                    | Zpos p => Zpos m * 2 ^ Zpos p
                    | Zneg p => Zpos m / 2 ^ Zpos p
                    end).
  { destruct e as [|p|p]; [lia | |].
    - apply Z.mul_nonneg_nonneg; [lia | apply Z.pow_nonneg; lia].
    - apply Z.div_pos; [lia | apply Z.pow_pos_nonneg; lia]. }
  unfold sf_trunc. destruct s; lia.
Qed.

Lemma sf_floor_sign (s : bool) (m : positive) (e : Z) :
  if s then sf_floor s m e <= 0 else sf_floor s m e = sf_trunc s m e.
Proof.
  destruct s; unfold sf_floor, sf_trunc; destruct e as [|p|p]; try reflexivity.
  - lia.
  - assert (0 < 2 ^ Zpos p) by (apply Z.pow_pos_nonneg; lia). nia.
  - assert (0 < 2 ^ Zpos p) by (apply Z.pow_pos_nonneg; lia).
    apply Z.lt_le_incl, Z.div_lt_upper_bound; [assumption | rewrite Z.mul_0_r; lia].
Qed.

(** Adding [0.0] to a real float leaves its value, and [max(_, 0.0)]
    then keeps it exactly when it is not negative. *)
Lemma seek_target_real (t : float) :
  is_real t = true ->
  exists z fl : Z,
    py_int t = Ok z /\ py_floor t = Ok fl /\
    seek_target t 0 = Ok (Z.max z 0) /\ Z.max fl 0 = Z.max z 0.
Proof.
  unfold is_real, seek_target, py_max, py_int, py_floor.
  rewrite ltb_spec, Prim2SF_zero.
  assert (Hadd := add_spec t 0). rewrite Prim2SF_zero in Hadd.
  destruct (Prim2SF t) as [s| | |s m e] eqn:Ht; try discriminate; intros _.
  - exists 0, 0. repeat split.
    replace (SFltb (Prim2SF (t + 0)) (S754_zero false)) with false
      by (rewrite Hadd; destruct s; reflexivity).
    rewrite Hadd. destruct s; reflexivity.
  - exists (sf_trunc s m e), (sf_floor s m e).
    pose proof (sf_trunc_sign s m e) as Hs. pose proof (sf_floor_sign s m e) as Hf.
    cbn in Hadd. rewrite Hadd.
    destruct s; cbn [SFltb SFcompare].
    + rewrite Prim2SF_zero. split; [reflexivity | split; [reflexivity | ]].
      split; [f_equal | ]; lia.
    + rewrite Hadd. split; [reflexivity | split; [reflexivity | ]].
      split; [f_equal; lia | rewrite Hf; reflexivity].
Qed.

Lemma SFcompare_antisym (x y : spec_float) :
  SFcompare y x = option_map CompOpp (SFcompare x y).
Proof.
  destruct x as [sx|sx| |sx mx ex], y as [sy|sy| |sy my ey]; cbn;
    try reflexivity; try (destruct sx; reflexivity); try (destruct sy; reflexivity);
    try (destruct sx, sy; reflexivity).
  destruct sx, sy; cbn; try reflexivity;
    rewrite (Z.compare_antisym ex ey); destruct (ex ?= ey); cbn; try reflexivity;
    rewrite (Pos.compare_cont_antisym mx my Eq); cbn;
    destruct (Pos.compare_cont Eq mx my); reflexivity.
Qed.

Lemma not_nan_abs (x : float) : not_nan (PrimFloat.abs x) = not_nan x.
Proof. unfold not_nan. rewrite abs_spec. destruct (Prim2SF x); reflexivity. Qed.

Lemma SFcompare_numbers (x y : spec_float) :
  x <> S754_nan -> y <> S754_nan -> exists c, SFcompare x y = Some c.
Proof.
  destruct x, y; intros Hx Hy; try contradiction; cbn; eexists; reflexivity.
Qed.

(** For numbers, [not (a < t)] is [t <= a]. *)
Lemma negb_ltb_leb (a t : float) :
  not_nan a = true -> not_nan t = true ->
  negb (a <? t)%float = (t <=? a)%float.
Proof.
  unfold not_nan. rewrite ltb_spec, leb_spec. unfold SFltb, SFleb.
  rewrite (SFcompare_antisym (Prim2SF a) (Prim2SF t)).
  intros Ha Ht.
  destruct (SFcompare_numbers (Prim2SF a) (Prim2SF t)) as [c ->].
  - intros E. rewrite E in Ha. discriminate.
  - intros E. rewrite E in Ht. discriminate.
  - destruct c; reflexivity.
Qed.

(** The test of the loop of [sync_once], as the specification words it. *)
Lemma skip_seek_policy (fr : bool) (d thr : float) :
  not_nan d = true -> not_nan thr = true ->
  negb (skip_seek fr d thr) = fr || (thr <=? PrimFloat.abs d)%float.
Proof.
  intros Hd Ht. unfold skip_seek.
  rewrite negb_andb, negb_involutive, negb_ltb_leb; [reflexivity| |exact Ht].
  rewrite not_nan_abs. exact Hd.
Qed.

(** *** The sign of a difference *)

Lemma digits2_pos_bounds (m : positive) :
  2 ^ (Zpos (digits2_pos m) - 1) <= Zpos m < 2 ^ Zpos (digits2_pos m).
Proof.
  induction m as [m IH|m IH|]; cbn [digits2_pos].
  - rewrite Pos2Z.inj_succ. replace (Z.succ (Zpos (digits2_pos m)) - 1) with (Zpos (digits2_pos m)) by lia.
    rewrite Z.pow_succ_r by lia.
    assert (Hd : 2 ^ Zpos (digits2_pos m) = 2 * 2 ^ (Zpos (digits2_pos m) - 1)).
    { rewrite <- Z.pow_succ_r by lia. f_equal. lia. }
    rewrite (Pos2Z.inj_xI m). lia.
  - rewrite Pos2Z.inj_succ. replace (Z.succ (Zpos (digits2_pos m)) - 1) with (Zpos (digits2_pos m)) by lia.
    rewrite Z.pow_succ_r by lia.
    assert (Hd : 2 ^ Zpos (digits2_pos m) = 2 * 2 ^ (Zpos (digits2_pos m) - 1)).
    { rewrite <- Z.pow_succ_r by lia. f_equal. lia. }
    rewrite (Pos2Z.inj_xO m). lia.
  - cbn. lia.
Qed.

Lemma iter_xO_pow (m d : positive) : Zpos (Pos.iter xO m d) = Zpos m * 2 ^ Zpos d.
Proof.
  induction d as [|d IH] using Pos.peano_ind.
  - cbn. lia.
  - rewrite Pos.iter_succ, Pos2Z.inj_xO, IH, Pos2Z.inj_succ, Z.pow_succ_r by lia. lia.
Qed.

Lemma shl_align_value (m : positive) (e e' : Z) :
  e' <= e -> Zpos (fst (shl_align m e e')) = Zpos m * 2 ^ (e - e').
Proof.
  intros He. unfold shl_align.
  destruct (e' - e) as [|d|d] eqn:Hd; try lia; cbn [fst].
  - replace (e - e') with 0 by lia. lia.
  - rewrite iter_xO_pow. f_equal. f_equal. lia.
Qed.

(** Of two valid binary64 numbers, the one with the smaller exponent
    has the smaller magnitude. *)
Lemma bounded_exponent_lt (m m' : positive) (e e' : Z) :
  bounded prec emax m e = true -> bounded prec emax m' e' = true ->
  e < e' -> Zpos m < Zpos m' * 2 ^ (e' - e).
Proof.
  unfold bounded, canonical_mantissa, fexp, emin, prec, emax.
  intros Hm Hm' He.
  apply andb_prop in Hm, Hm'. destruct Hm as [Hm _], Hm' as [Hm' _].
  apply Z.eqb_eq in Hm, Hm'.
  pose proof (digits2_pos_bounds m) as [_ Hu].
  pose proof (digits2_pos_bounds m') as [Hl' _].
  assert (Hd : Zpos (digits2_pos m) <= 53) by lia.
  assert (Hd' : Zpos (digits2_pos m') = 53) by lia.
  rewrite Hd' in Hl'.
  assert (H1 : 2 ^ Zpos (digits2_pos m) <= 2 ^ 53) by (apply Z.pow_le_mono_r; lia).
  assert (H2 : 2 ^ 1 <= 2 ^ (e' - e)) by (apply Z.pow_le_mono_r; lia).
  change (2 ^ 53) with (2 * 2 ^ (53 - 1)) in H1. change (2 ^ 1) with 2 in H2.
  nia.
Qed.

Lemma binary_round_aux_negative (mx ex : Z) (lx : location) :
  SFltb (S754_zero false) (binary_round_aux prec emax true mx ex lx) = false.
Proof.
  unfold binary_round_aux.
  destruct (shr_fexp prec emax mx ex lx) as [mrs' e'].
  destruct (shr_fexp prec emax _ e' loc_Exact) as [mrs'' e''].
  destruct (shr_m mrs''); [reflexivity | | reflexivity].
  destruct (e'' <=? emax - prec); reflexivity.
Qed.

Lemma binary_normalize_positive (d e : Z) :
  SFltb (S754_zero false) (binary_normalize prec emax d e false) = true -> 0 < d.
Proof.
  destruct d as [|p|p]; cbn [binary_normalize]; [discriminate | lia |].
  unfold binary_round. destruct (shl_align p e _) as [mz ez].
  rewrite binary_round_aux_negative. discriminate.
Qed.

Lemma SFsub_positive (x y : spec_float) :
  valid_binary x = true -> valid_binary y = true ->
  SFltb (S754_zero false) (SF64sub x y) = true -> SFltb y x = true.
Proof.
  intros Vx Vy.
  destruct x as [sx|sx| |sx mx ex], y as [sy|sy| |sy my ey]; cbn;
    try discriminate; try (destruct sx; (reflexivity || discriminate));
    try (destruct sy; (reflexivity || discriminate));
    try (destruct sx, sy; (reflexivity || discriminate)).
  intros Hpos. apply binary_normalize_positive in Hpos.
  cbn in Vx, Vy.
  rewrite (shl_align_value mx ex (Z.min ex ey) (Z.le_min_l _ _)) in Hpos.
  rewrite (shl_align_value my ey (Z.min ex ey) (Z.le_min_r _ _)) in Hpos.
  unfold SFltb, SFcompare.
  destruct sx, sy; cbn [cond_Zopp] in Hpos; try reflexivity.
  - destruct (Z.compare_spec ey ex) as [He|He|He]; cbn.
    + subst ey. rewrite Z.min_id, Z.sub_diag in Hpos.
      rewrite Pos.compare_cont_spec. cbn.
      assert (Hc : (my ?= mx)%positive = Gt) by (apply Pos.compare_gt_iff; lia).
      rewrite Hc. reflexivity.
    + exfalso. pose proof (bounded_exponent_lt my mx ey ex Vy Vx He).
      rewrite Z.min_r, Z.sub_diag in Hpos by lia. lia.
    + reflexivity.
  - exfalso.
    assert (0 < 2 ^ (ex - Z.min ex ey)) by (apply Z.pow_pos_nonneg; lia).
    assert (0 < 2 ^ (ey - Z.min ex ey)) by (apply Z.pow_pos_nonneg; lia).
    nia.
  - destruct (Z.compare_spec ey ex) as [He|He|He]; cbn.
    + subst ey. rewrite Z.min_id, Z.sub_diag in Hpos.
      rewrite Pos.compare_cont_spec. cbn.
      assert (Hc : (my ?= mx)%positive = Lt) by (apply Pos.compare_lt_iff; lia).
      rewrite Hc. reflexivity.
    + reflexivity.
    + exfalso. pose proof (bounded_exponent_lt mx my ex ey Vx Vy He).
      rewrite Z.min_l, Z.sub_diag in Hpos by lia. lia.
Qed.

(** A positive difference means that the second number is the smaller. *)
Lemma sub_positive (m s : float) :
  (0 <? m - s)%float = true -> (s <? m)%float = true.
Proof.
  rewrite !ltb_spec, sub_spec. change (Prim2SF 0) with (S754_zero false).
  apply SFsub_positive; apply Prim2SF_valid.
Qed.

Lemma binary_round_aux_positive (mx ex : Z) (lx : location) :
  SFltb (binary_round_aux prec emax false mx ex lx) (S754_zero false) = false.
Proof.
  unfold binary_round_aux.
  destruct (shr_fexp prec emax mx ex lx) as [mrs' e'].
  destruct (shr_fexp prec emax _ e' loc_Exact) as [mrs'' e''].
  destruct (shr_m mrs''); [reflexivity | | reflexivity].
  destruct (e'' <=? emax - prec); reflexivity.
Qed.

Lemma binary_normalize_negative (d e : Z) :
  SFltb (binary_normalize prec emax d e false) (S754_zero false) = true -> d < 0.
Proof.
  destruct d as [|p|p]; cbn [binary_normalize]; [discriminate | | lia].
  unfold binary_round. destruct (shl_align p e _) as [mz ez].
  rewrite binary_round_aux_positive. discriminate.
Qed.

Lemma SFsub_negative (x y : spec_float) :
  valid_binary x = true -> valid_binary y = true ->
  SFltb (SF64sub x y) (S754_zero false) = true -> SFltb x y = true.
Proof.
  intros Vx Vy.
  destruct x as [sx|sx| |sx mx ex], y as [sy|sy| |sy my ey]; cbn;
    try discriminate; try (destruct sx; (reflexivity || discriminate));
    try (destruct sy; (reflexivity || discriminate));
    try (destruct sx, sy; (reflexivity || discriminate)).
  intros Hneg. apply binary_normalize_negative in Hneg.
  cbn in Vx, Vy.
  rewrite (shl_align_value mx ex (Z.min ex ey) (Z.le_min_l _ _)) in Hneg.
  rewrite (shl_align_value my ey (Z.min ex ey) (Z.le_min_r _ _)) in Hneg.
  unfold SFltb, SFcompare.
  destruct sx, sy; cbn [cond_Zopp] in Hneg; try reflexivity.
  - destruct (Z.compare_spec ex ey) as [He|He|He]; cbn.
    + subst ey. rewrite Z.min_id, Z.sub_diag in Hneg.
      rewrite Pos.compare_cont_spec. cbn.
      assert (Hc : (mx ?= my)%positive = Gt) by (apply Pos.compare_gt_iff; lia).
      rewrite Hc. reflexivity.
    + exfalso. pose proof (bounded_exponent_lt mx my ex ey Vx Vy He).
      rewrite Z.min_l, Z.sub_diag in Hneg by lia. lia.
    + reflexivity.
  - exfalso.
    assert (0 < 2 ^ (ex - Z.min ex ey)) by (apply Z.pow_pos_nonneg; lia).
    assert (0 < 2 ^ (ey - Z.min ex ey)) by (apply Z.pow_pos_nonneg; lia).
    nia.
  - destruct (Z.compare_spec ex ey) as [He|He|He]; cbn.
    + subst ey. rewrite Z.min_id, Z.sub_diag in Hneg.
      rewrite Pos.compare_cont_spec. cbn.
      assert (Hc : (mx ?= my)%positive = Lt) by (apply Pos.compare_lt_iff; lia).
      rewrite Hc. reflexivity.
    + reflexivity.
    + exfalso. pose proof (bounded_exponent_lt my mx ey ex Vy Vx He).
      rewrite Z.min_r, Z.sub_diag in Hneg by lia. lia.
Qed.

(** A negative difference means that the first number is the smaller. *)
Lemma sub_negative (m s : float) :
  (m - s <? 0)%float = true -> (m <? s)%float = true.
Proof.
  rewrite !ltb_spec, sub_spec. change (Prim2SF 0) with (S754_zero false).
  apply SFsub_negative; apply Prim2SF_valid.
Qed.

Section Properties.

Context `{PyEnv}.

(** ** Computations *)

Lemma result_bind {A B} (c : M A) (k : A -> M B) (w : World) :
  result_of (bind c k w) =
  match result_of (c w) with
  | Ok a => result_of (k a (world_of (c w)))
  | Raise e => Raise e
  end.
Proof.
  unfold bind, result_of, world_of.
  destruct (c w) as [[[a|e] w1] t1]; cbn; [|reflexivity].
  destruct (k a w1) as [[r w2] t2]; reflexivity.
Qed.

Lemma world_bind {A B} (c : M A) (k : A -> M B) (w : World) :
  world_of (bind c k w) =
  match result_of (c w) with
  | Ok a => world_of (k a (world_of (c w)))
  | Raise e => world_of (c w)
  end.
Proof.
  unfold bind, result_of, world_of.
  destruct (c w) as [[[a|e] w1] t1]; cbn; [|reflexivity].
  destruct (k a w1) as [[r w2] t2]; reflexivity.
Qed.

Lemma trace_bind {A B} (c : M A) (k : A -> M B) (w : World) :
  trace_of (bind c k w) =
  trace_of (c w) ++
  match result_of (c w) with
  | Ok a => trace_of (k a (world_of (c w)))
  | Raise e => []
  end.
Proof.
  unfold bind, result_of, world_of, trace_of.
  destruct (c w) as [[[a|e] w1] t1]; cbn; [|symmetry; apply app_nil_r].
  destruct (k a w1) as [[r w2] t2]; reflexivity.
Qed.

Lemma requests_app (t1 t2 : list event) :
  requests (t1 ++ t2) = requests t1 ++ requests t2.
Proof. apply List.filter_app. Qed.

Lemma requests_print (m : msg) (tr : list event) :
  requests (EvPrint m :: tr) = requests tr.
Proof. reflexivity. Qed.

Lemma seeks_requests (tr : list event) : seeks tr = List.filter is_seek (requests tr).
Proof.
  unfold seeks, requests. induction tr as [|e tr IH]; [reflexivity|].
  destruct e; cbn; rewrite IH; reflexivity.
Qed.

Lemma quiet_ret {A} (a : A) : quiet (ret a).
Proof. split; reflexivity. Qed.

Lemma quiet_lift {A} (o : outcome A) : quiet (lift o).
Proof. split; reflexivity. Qed.

Lemma quiet_print (m : msg) : quiet (print m).
Proof. split; reflexivity. Qed.

Lemma quiet_bind {A B} (c : M A) (k : A -> M B) :
  quiet c -> (forall a, quiet (k a)) -> quiet (bind c k).
Proof.
  intros Hc Hk w. destruct (Hc w) as [Ht Hw].
  rewrite trace_bind, world_bind, requests_app, Ht.
  destruct (result_of (c w)) as [a|e]; [|split; [reflexivity | exact Hw]].
  rewrite Hw. apply Hk.
Qed.

Lemma quiet_foldM {A S} (body : A -> S -> M S) (l : list A) (s : S) :
  (forall x s', quiet (body x s')) -> quiet (foldM body l s).
Proof.
  intros Hb. revert s. induction l as [|x l IH]; intros s; cbn [foldM].
  - apply quiet_ret.
  - apply quiet_bind; [apply Hb | intros; apply IH].
Qed.


(** ** The Correction Commander: [seek_vlc_to_time] *)

(** What a seek does once its target is known: one request, and the
    pair of the verdict and the target as the result. *)
Lemma seek_vlc_to_time_run (host : string) (port : Z) (password : string)
    (t delta : float) (target : Z) (w : World) :
  seek_target t 0 = Ok target ->
  result_of (seek_vlc_to_time host port password t delta w)
    = Ok (fst (http_seek host port password target w), target) /\
  world_of (seek_vlc_to_time host port password t delta w)
    = snd (http_seek host port password target w) /\
  requests (trace_of (seek_vlc_to_time host port password t delta w))
    = [EvSeek host port target].
Proof.
  intros Ht. unfold seek_vlc_to_time, bind, lift. rewrite Ht.
  destruct (http_seek host port password target w) as [[|] w1]; cbn; auto.
Qed.

(** C9: the applied target and everything else a seek does are the same
    for any two values of the [delta] argument. *)
Theorem seek_vlc_to_time_ignores_delta (host : string) (port : Z)
    (password : string) (time_seconds delta1 delta2 : float) (w : World) :
  seek_vlc_to_time host port password time_seconds delta1 w
  = seek_vlc_to_time host port password time_seconds delta2 w.
Proof. reflexivity. Qed.

(** C5: for a real target time the seek sends, and returns with either
    verdict, the integer part of the time or 0 when that is negative;
    truncating and flooring give the same target. *)
Theorem seek_vlc_to_time_target (host : string) (port : Z) (password : string)
    (time_seconds delta : float) (w : World) :
  is_real time_seconds = true ->
  exists z fl : Z,
    py_int time_seconds = Ok z /\ py_floor time_seconds = Ok fl /\
    let target := Z.max z 0 in
    target = Z.max fl 0 /\ 0 <= target /\
    result_of (seek_vlc_to_time host port password time_seconds delta w)
      = Ok (fst (http_seek host port password target w), target) /\
    requests (trace_of (seek_vlc_to_time host port password time_seconds delta w))
      = [EvSeek host port target].
Proof.
  intros Hr. destruct (seek_target_real time_seconds Hr) as (z & fl & Hz & Hfl & Ht & Hmax).
  exists z, fl. split; [exact Hz|]. split; [exact Hfl|]. cbn zeta.
  destruct (seek_vlc_to_time_run host port password time_seconds delta (Z.max z 0) w Ht)
    as (Hres & _ & Hreq).
  split; [symmetry; exact Hmax|]. split; [lia|]. split; assumption.
Qed.

(** The target for [-5.0] is [0], whatever the verdict. *)
Example seek_vlc_to_time_minus_five (host : string) (port : Z) (password : string)
    (delta : float) (w : World) :
  result_of (seek_vlc_to_time host port password (-5) delta w)
    = Ok (fst (http_seek host port password 0 w), 0) /\
  requests (trace_of (seek_vlc_to_time host port password (-5) delta w))
    = [EvSeek host port 0].
Proof.
  destruct (seek_vlc_to_time_run host port password (-5) delta 0 w eq_refl)
    as (Hres & _ & Hreq).
  split; assumption.
Qed.

(** ** Requests of the building blocks *)

Lemma py_index_nth {A} (l : list A) (i : nat) (d : A) :
  (i < length l)%nat -> py_index l i = Ok (nth i l d).
Proof.
  intros Hi. unfold py_index. rewrite (nth_lookup l i d).
  destruct (lookup_lt_is_Some_2 l i Hi) as [x ->]. reflexivity.
Qed.

Lemma get_vlc_status_run (host : string) (port : Z) (password : string) (w : World) :
  result_of (get_vlc_status host port password w)
    = Ok (default PNone (fst (http_status host port password w))) /\
  world_of (get_vlc_status host port password w)
    = snd (http_status host port password w) /\
  requests (trace_of (get_vlc_status host port password w)) = [EvStatus host port].
Proof.
  unfold get_vlc_status.
  destruct (http_status host port password w) as [[v|] w1]; repeat split.
Qed.

Lemma timed_status_request_run (host : string) (port : Z) (password : string)
    (w : World) :
  (exists v, result_of (timed_status_request host port password w) = Ok v) /\
  requests (trace_of (timed_status_request host port password w))
    = [EvStatus host port].
Proof.
  unfold timed_status_request, bind, ret.
  destruct (perf_counter w) as [t0 w0].
  destruct (get_vlc_status_run host port password w0) as (Hr & _ & Ht).
  destruct (get_vlc_status host port password w0) as [[r w1] t1].
  cbn in Hr, Ht. subst r.
  destruct (perf_counter w1) as [t2 w2]. cbn.
  rewrite app_nil_r. split; [eexists; reflexivity | exact Ht].
Qed.

Lemma poll_all_run (parsed : list (string * Z)) (w : World) :
  exists results,
    result_of (poll_all parsed w) = Ok results /\
    length results = length parsed /\
    requests (trace_of (poll_all parsed w)) = map status_request parsed.
Proof.
  unfold poll_all. revert w.
  induction parsed as [|[h p] parsed IH]; intros w; cbn [mapM].
  - exists []. repeat split.
  - destruct (timed_status_request_run h p VLC_PASSWORD w) as ([v Hv] & Ht).
    set (w1 := world_of (timed_status_request h p VLC_PASSWORD w)).
    destruct (IH w1) as (results & Hr & Hlen & Hreq).
    exists (v :: results).
    rewrite result_bind, trace_bind, requests_app. cbn [fst snd].
    rewrite Hv, Ht. fold w1.
    rewrite result_bind, trace_bind, requests_app, Hr, Hreq. cbn.
    rewrite app_nil_r, Hlen. repeat split.
Qed.

Lemma quiet_detect_slave (parsed : list (string * Z)) (statuses : list pyval)
    (rtt_ms : list float) (master_time : float) (i : nat) (delays : list float) :
  quiet (detect_slave parsed statuses rtt_ms master_time i delays).
Proof.
  unfold detect_slave.
  apply quiet_bind; [apply quiet_lift | intros [host port]].
  apply quiet_bind; [apply quiet_lift | intros status].
  apply quiet_bind; [apply quiet_lift | intros slave_time].
  apply quiet_bind; [apply quiet_lift | intros rtt].
  apply quiet_bind; [apply quiet_print | intros _].
  destruct slave_time as [slave_time|];
    (apply quiet_bind; [apply quiet_print | intros _; apply quiet_ret]).
Qed.

(** The re-measure sends one status request to each endpoint and no
    seek, however it ends. *)
Lemma detect_delays_requests (host_strs : list string) (parsed : list (string * Z))
    (w : World) :
  omap parse_host_port host_strs = Ok parsed ->
  requests (trace_of (detect_delays host_strs w)) = map status_request parsed.
Proof.
  intros Hparse. unfold detect_delays.
  destruct host_strs as [|h0 hs].
  { cbn in Hparse. injection Hparse as <-. reflexivity. }
  rewrite trace_bind, Hparse. cbn [lift result_of world_of trace_of fst snd app].
  rewrite trace_bind, requests_app.
  cbn [print emit result_of world_of trace_of fst snd requests List.filter is_request app].
  destruct (poll_all_run parsed w) as (results & Hr & Hlen & Hreq).
  rewrite trace_bind, requests_app, Hr, Hreq.
  set (w1 := world_of (poll_all parsed w)).
  match goal with |- _ ++ requests (trace_of (?c w1)) = _ =>
    assert (Hq : quiet c) end.
  { apply quiet_bind; [apply quiet_lift | intros status0].
    apply quiet_bind; [apply quiet_lift | intros [master_time|]].
    - apply quiet_bind; [apply quiet_lift | intros rtt0].
      apply quiet_bind; [apply quiet_print | intros _].
      apply quiet_bind; [|intros; apply quiet_ret].
      apply quiet_foldM. intros; apply quiet_detect_slave.
    - apply quiet_bind; [apply quiet_print | intros _; apply quiet_ret]. }
  destruct (Hq w1) as [-> _]. apply app_nil_r.
Qed.

(** ** The loop of [sync_once] *)

Ltac run_step :=
  cbn [result_of world_of trace_of lift print emit ret fst snd app].

Lemma sync_slave_run (parsed : list (string * Z)) (delays : list float)
    (thr mt : float) (fr : bool) (i : nat) (target : Z) (w : World) :
  (i < length parsed)%nat -> (i < length delays)%nat ->
  seek_target mt 0 = Ok target ->
  result_of (sync_slave parsed delays thr mt fr i tt w) = Ok tt /\
  requests (trace_of (sync_slave parsed delays thr mt fr i tt w))
    = if skip_seek fr (nth i delays 0%float) thr then []
      else [seek_request target (endpoint_at parsed i)].
Proof.
  intros Hp Hd Ht. unfold sync_slave, endpoint_at.
  rewrite result_bind, trace_bind, (py_index_nth parsed i (EmptyString, 0) Hp).
  run_step. destruct (nth i parsed (EmptyString, 0)) as [host port].
  rewrite result_bind, trace_bind, (py_index_nth delays i 0%float Hd).
  run_step. destruct (skip_seek fr (nth i delays 0%float) thr); [split; reflexivity|].
  destruct (seek_vlc_to_time_run host port VLC_PASSWORD mt (nth i delays 0%float)
              target w Ht) as (Hres & _ & Hreq).
  rewrite result_bind, trace_bind, requests_app, Hres, Hreq.
  destruct (fst (http_seek host port VLC_PASSWORD target w)); split; reflexivity.
Qed.

Lemma sync_slaves_run (parsed : list (string * Z)) (delays : list float)
    (thr mt : float) (fr : bool) (target : Z) (l : list nat) :
  seek_target mt 0 = Ok target ->
  Forall (fun i => (i < length parsed)%nat /\ (i < length delays)%nat) l ->
  forall w,
    result_of (foldM (sync_slave parsed delays thr mt fr) l tt w) = Ok tt /\
    requests (trace_of (foldM (sync_slave parsed delays thr mt fr) l tt w))
      = map (fun i => seek_request target (endpoint_at parsed i))
            (List.filter (fun i => negb (skip_seek fr (nth i delays 0%float) thr)) l).
Proof.
  intros Ht Hl. induction Hl as [|i l [Hp Hd] _ IH]; intros w; cbn [foldM].
  - split; reflexivity.
  - destruct (sync_slave_run parsed delays thr mt fr i target w Hp Hd Ht) as [Hr Hq].
    rewrite result_bind, trace_bind, requests_app, Hr, Hq.
    destruct (IH (world_of (sync_slave parsed delays thr mt fr i tt w))) as [Hr' Hq'].
    rewrite Hr', Hq'. cbn [List.filter].
    destruct (skip_seek fr (nth i delays 0%float) thr); split; reflexivity.
Qed.

Lemma slave_indices_lt (n i : nat) : In i (slave_indices n) -> (1 <= i < n)%nat.
Proof. unfold slave_indices. rewrite in_seq. lia. Qed.

(** The requests of a cycle in which the master's time is read and is
    a real number, and every slave has a drift: the master's status
    request, then a seek for each slave that is not skipped, then the
    status requests of the re-measure. *)
Lemma sync_once_requests (host_strs : list string) (delays : list float)
    (thr : float) (w : World) (master : string * Z) (slaves : list (string * Z))
    (status : pyval) (mt : float) (target : Z) :
  omap parse_host_port host_strs = Ok (master :: slaves) ->
  result_of (get_vlc_status (fst master) (snd master) VLC_PASSWORD w) = Ok status ->
  extract_precise_time status = Ok (Some mt) ->
  seek_target mt 0 = Ok target ->
  (length (master :: slaves) <= length delays)%nat ->
  requests (trace_of (sync_once host_strs delays thr w))
    = status_request master
      :: map (fun i => seek_request target (endpoint_at (master :: slaves) i))
             (corrected_slaves delays thr (length (master :: slaves)))
      ++ map status_request (master :: slaves).
Proof.
  intros Hparse Hst Hmt Ht Hlen. unfold sync_once.
  rewrite trace_bind, Hparse. run_step. cbn [app].
  rewrite trace_bind. run_step. cbn [py_index lookup list_lookup app].
  destruct master as [mh mp]. cbn [fst snd] in *.
  destruct (get_vlc_status_run mh mp VLC_PASSWORD w) as (_ & _ & Hreq).
  rewrite trace_bind, requests_app, Hreq, Hst.
  rewrite trace_bind, Hmt. run_step. cbn [app].
  rewrite trace_bind. run_step. rewrite requests_print.
  set (w1 := world_of (get_vlc_status mh mp VLC_PASSWORD w)).
  assert (Hall : Forall (fun i => (i < length ((mh, mp) :: slaves))%nat /\
                                  (i < length delays)%nat)
                        (slave_indices (length ((mh, mp) :: slaves)))).
  { apply List.Forall_forall. intros i Hi. apply slave_indices_lt in Hi. lia. }
  destruct (sync_slaves_run ((mh, mp) :: slaves) delays thr mt (first_run delays)
              target _ Ht Hall w1) as [Hr Hq].
  rewrite trace_bind, requests_app, Hr, Hq.
  rewrite trace_bind, requests_app, (detect_delays_requests _ _ _ Hparse).
  match goal with |- context [requests (match ?r with _ => _ end)] =>
    replace (requests (match r with Ok a => _ | Raise _ => [] end)) with (@nil event)
  end.
  - rewrite app_nil_r. reflexivity.
  - destruct (result_of (detect_delays host_strs _)) as [[[nd rtt]|]|]; reflexivity.
Qed.

(** ** The result of [detect_delays] *)

Lemma omap_length {A B} (f : A -> outcome B) (l : list A) (l' : list B) :
  omap f l = Ok l' -> length l' = length l.
Proof.
  revert l'. induction l as [|x l IH]; intros l' Hl; cbn in Hl.
  - injection Hl as <-. reflexivity.
  - destruct (f x) as [y|e]; [|discriminate]. cbn in Hl.
    destruct (omap f l) as [ys|e]; [|discriminate]. cbn in Hl.
    injection Hl as <-. cbn. rewrite (IH ys eq_refl). reflexivity.
Qed.

Lemma lookup_repeat {A} (x : A) (n i : nat) :
  (i < n)%nat -> repeat x n !! i = Some x.
Proof.
  revert i. induction n as [|n IH]; intros i Hi; [lia|].
  destruct i as [|i]; [reflexivity|]. cbn. apply IH. lia.
Qed.

(** What one turn of the loop of [detect_delays] does to the drifts. *)
Lemma detect_slave_result (parsed : list (string * Z)) (statuses : list pyval)
    (rtt_ms : list float) (mt : float) (i : nat) (ds ds' : list float) (w : World) :
  result_of (detect_slave parsed statuses rtt_ms mt i ds w) = Ok ds' ->
  exists status,
    statuses !! i = Some status /\
    ((exists t, extract_precise_time status = Ok (Some t) /\
                ds' = <[i := (mt - t)%float]> ds) \/
     (extract_precise_time status = Ok None /\ ds' = ds)).
Proof.
  unfold detect_slave. rewrite result_bind. run_step.
  destruct (py_index parsed i) as [[host port]|e]; [|discriminate].
  rewrite result_bind. run_step. unfold py_index at 1.
  destruct (statuses !! i) as [status|]; [|discriminate].
  rewrite result_bind. run_step.
  destruct (extract_precise_time status) as [slave_time|e] eqn:Hext; [|discriminate].
  rewrite result_bind. run_step.
  destruct (py_index rtt_ms i) as [rtt|e]; [|discriminate].
  rewrite result_bind. run_step.
  destruct slave_time as [t|]; rewrite result_bind; run_step;
    intros Hr; injection Hr as <-; exists status; (split; [reflexivity|]).
  - left. exists t. split; [exact Hext | reflexivity].
  - right. split; [exact Hext | reflexivity].
Qed.

Lemma detect_slaves_result (parsed : list (string * Z)) (statuses : list pyval)
    (rtt_ms : list float) (mt : float) (l : list nat) :
  List.NoDup l ->
  forall (ds ds' : list float) (w : World),
    Forall (fun i => (i < length ds)%nat) l ->
    result_of (foldM (detect_slave parsed statuses rtt_ms mt) l ds w) = Ok ds' ->
    length ds' = length ds /\
    (forall j, ~ In j l -> ds' !! j = ds !! j) /\
    (forall j, In j l ->
       exists status,
         statuses !! j = Some status /\
         ((exists t, extract_precise_time status = Ok (Some t) /\
                     ds' !! j = Some (mt - t)%float) \/
          (extract_precise_time status = Ok None /\ ds' !! j = ds !! j))).
Proof.
  induction 1 as [|i l Hi Hnd IH]; intros ds ds' w Hlt Hres; cbn [foldM] in Hres.
  - injection Hres as <-. split; [reflexivity|]. split; [reflexivity|]. intros j [].
  - rewrite result_bind in Hres.
    destruct (result_of (detect_slave parsed statuses rtt_ms mt i ds w)) as [ds1|e] eqn:H1;
      [|discriminate].
    apply detect_slave_result in H1. destruct H1 as (status & Hst & Hcase).
    apply List.Forall_cons_iff in Hlt. destruct Hlt as [Hi_lt Hlt].
    assert (Hlen1 : length ds1 = length ds).
    { destruct Hcase as [(t & _ & ->) | [_ ->]]; [apply length_insert | reflexivity]. }
    assert (Hlt1 : Forall (fun k => (k < length ds1)%nat) l) by (rewrite Hlen1; exact Hlt).
    destruct (IH ds1 ds' _ Hlt1 Hres) as (Hlen & Hout & Hin).
    assert (Hother : forall j, j <> i -> ds1 !! j = ds !! j).
    { intros j Hj. destruct Hcase as [(t & _ & ->) | [_ ->]]; [|reflexivity].
      apply list_lookup_insert_ne. congruence. }
    split; [congruence|]. split.
    + intros j Hj. rewrite Hout by (intros Hjl; apply Hj; right; exact Hjl).
      apply Hother. intros ->. apply Hj. left. reflexivity.
    + intros j [<- | Hj].
      * exists status. split; [exact Hst|]. rewrite (Hout i Hi).
        destruct Hcase as [(t & Ht & ->) | [Hn ->]].
        -- left. exists t. split; [exact Ht|]. apply list_lookup_insert_eq. exact Hi_lt.
        -- right. split; [exact Hn | reflexivity].
      * destruct (Hin j Hj) as (st & Hs & Hc). exists st. split; [exact Hs|].
        destruct Hc as [Hc | [Hn Hc]]; [left; exact Hc|].
        right. split; [exact Hn|]. rewrite Hc. apply Hother. intros ->. contradiction.
Qed.

(** The drifts that [detect_delays] returns: one per endpoint, [0.0] in
    the master's slot, and in the slot of a slave the master's time
    minus the slave's, or [0.0] when the slave has no time. *)
Lemma detect_delays_result (host_strs : list string) (w : World)
    (delays rtt_ms : list float) :
  result_of (detect_delays host_strs w) = Ok (Some (delays, rtt_ms)) ->
  exists parsed results status0 mt,
    omap parse_host_port host_strs = Ok parsed /\
    result_of (poll_all parsed w) = Ok results /\
    rtt_ms = map snd results /\
    map fst results !! 0%nat = Some status0 /\
    extract_precise_time status0 = Ok (Some mt) /\
    length delays = length host_strs /\
    delays !! 0%nat = Some 0%float /\
    forall i, (1 <= i < length host_strs)%nat ->
      exists status,
        map fst results !! i = Some status /\
        ((exists t, extract_precise_time status = Ok (Some t) /\
                    delays !! i = Some (mt - t)%float) \/
         (extract_precise_time status = Ok None /\ delays !! i = Some 0%float)).
Proof.
  unfold detect_delays. destruct host_strs as [|h0 hs]; [discriminate|].
  set (hosts := h0 :: hs).
  rewrite result_bind. run_step.
  destruct (omap parse_host_port hosts) as [parsed|e] eqn:Hparse; [|discriminate].
  pose proof (omap_length _ _ _ Hparse) as Hplen.
  rewrite result_bind. run_step.
  rewrite result_bind.
  destruct (result_of (poll_all parsed w)) as [results|e] eqn:Hpoll; [|discriminate].
  set (w1 := world_of (poll_all parsed w)).
  rewrite result_bind. run_step. unfold py_index at 1.
  destruct (map fst results !! 0%nat) as [status0|] eqn:Hs0; [|discriminate].
  rewrite result_bind. run_step.
  destruct (extract_precise_time status0) as [[mt|]|e] eqn:Hmt;
    [|rewrite result_bind; discriminate|discriminate].
  rewrite result_bind. run_step.
  destruct (py_index (map snd results) 0) as [rtt0|e]; [|discriminate].
  rewrite result_bind. run_step. rewrite result_bind.
  match goal with |- context [result_of (foldM ?b ?l ?s ?w)] =>
    destruct (result_of (foldM b l s w)) as [ds|e] eqn:Hfold end; [|discriminate].
  run_step. intros Hr. injection Hr as -> <-.
  assert (Hnd : List.NoDup (slave_indices (length parsed))) by apply List.seq_NoDup.
  assert (Hlt : Forall (fun i => (i < length (repeat 0%float (length parsed)))%nat)
                       (slave_indices (length parsed))).
  { apply List.Forall_forall. intros i Hi. apply slave_indices_lt in Hi.
    rewrite repeat_length. lia. }
  destruct (detect_slaves_result _ _ _ _ _ Hnd _ _ _ Hlt Hfold) as (Hlen & Hout & Hin).
  rewrite repeat_length in Hlen.
  exists parsed, results, status0, mt.
  repeat (split; [first [reflexivity | assumption | congruence]|]).
  split.
  - rewrite Hout.
    + apply lookup_repeat. rewrite Hplen. cbn. lia.
    + intros Hi. apply slave_indices_lt in Hi. lia.
  - intros i Hi. rewrite <- Hplen in Hi.
    assert (Hii : In i (slave_indices (length parsed))).
    { unfold slave_indices. apply in_seq. lia. }
    destruct (Hin i Hii) as (status & Hst & Hc). exists status. split; [exact Hst|].
    destruct Hc as [Hc | [Hn Hc]]; [left; exact Hc|].
    right. split; [exact Hn|]. rewrite Hc. apply lookup_repeat. lia.
Qed.

(** ** The Time Extractor: [extract_precise_time] *)

Lemma extract_without_product (d : gmap string pyval) :
  is_not_none (dict_get d "position") && py_truthy (dict_get d "length") = false ->
  extract_precise_time (PDict d) = Ok (time_field d).
Proof. intros Hc. cbn. rewrite Hc. reflexivity. Qed.

Lemma time_field_delete (d : gmap string pyval) :
  time_field (delete "position" (delete "length" d)) = time_field d.
Proof.
  unfold time_field, dict_get.
  rewrite lookup_delete_ne by discriminate.
  rewrite lookup_delete_ne by discriminate. reflexivity.
Qed.

Lemma time_field_none (d : gmap string pyval) :
  time_field d = None <->
  is_not_none (dict_get d "time") = false \/
  forall f, py_float (dict_get d "time") <> Ok f.
Proof.
  unfold time_field. destruct (is_not_none (dict_get d "time")).
  - destruct (py_float (dict_get d "time")) as [f|e]; split.
    + discriminate.
    + intros [Hn | Hf]; [discriminate | destruct (Hf f); reflexivity].
    + intros _. right. discriminate.
    + reflexivity.
  - split; [left|]; reflexivity.
Qed.

(** C6: the priority order of [extract_precise_time] on a status
    object: the product of position and length when both are there and
    the length is not zero; otherwise the [time] field as a float;
    otherwise nothing. *)
Theorem extract_precise_time_policy (d : gmap string pyval) :
  let pos := dict_get d "position" in
  let length := dict_get d "length" in
  let t := dict_get d "time" in
  (forall p l : float,
     is_not_none pos = true -> py_truthy length = true ->
     py_float pos = Ok p -> py_float length = Ok l ->
     extract_precise_time (PDict d) = Ok (Some (p * l)%float)) /\
  (forall f : float,
     is_not_none pos = false \/ py_truthy length = false ->
     is_not_none t = true -> py_float t = Ok f ->
     extract_precise_time (PDict d) = Ok (Some f)) /\
  (is_not_none pos = false \/ py_truthy length = false ->
   is_not_none t = false ->
   extract_precise_time (PDict d) = Ok None).
Proof.
  cbn zeta. split; [|split].
  - intros p l Hp Hl Hfp Hfl. cbn. rewrite Hp, Hl. cbn.
    unfold position_times_length. rewrite Hfp, Hfl. reflexivity.
  - intros f Hc Ht Hf. rewrite extract_without_product.
    + unfold time_field. rewrite Ht, Hf. reflexivity.
    + destruct Hc as [-> | ->]; [reflexivity | apply andb_false_r].
  - intros Hc Ht. rewrite extract_without_product.
    + unfold time_field. rewrite Ht. reflexivity.
    + destruct Hc as [-> | ->]; [reflexivity | apply andb_false_r].
Qed.

(** The three payloads of the specification. *)
Example extract_precise_time_examples :
  extract_precise_time
    (PDict (list_to_map [("position", PFloat 0.5); ("length", PInt 120)]))
    = Ok (Some 60%float) /\
  extract_precise_time (PDict (list_to_map [("time", PInt 42)])) = Ok (Some 42%float) /\
  extract_precise_time (PDict ∅) = Ok None.
Proof. repeat split; vm_compute; reflexivity. Qed.

(** C10: when position and a truthy length are there but one of the
    two conversions raises, nothing is raised: the result is that of
    the [time] field, the same as for the object without position and
    length, and it is nothing only when [time] is missing or does not
    convert. *)
Theorem extract_precise_time_fallback (d : gmap string pyval) :
  is_not_none (dict_get d "position") = true ->
  py_truthy (dict_get d "length") = true ->
  (exists e, py_float (dict_get d "position") = Raise e) \/
  (exists e, py_float (dict_get d "length") = Raise e) ->
  extract_precise_time (PDict d) = Ok (time_field d) /\
  extract_precise_time (PDict d)
    = extract_precise_time (PDict (delete "position" (delete "length" d))) /\
  (extract_precise_time (PDict d) = Ok None <->
   is_not_none (dict_get d "time") = false \/
   forall f, py_float (dict_get d "time") <> Ok f).
Proof.
  intros Hp Hl Hfail.
  assert (Hd : extract_precise_time (PDict d) = Ok (time_field d)).
  { cbn. rewrite Hp, Hl. cbn. unfold position_times_length.
    destruct Hfail as [[e He] | [e He]].
    - rewrite He. reflexivity.
    - rewrite He. destruct (py_float (dict_get d "position")); reflexivity. }
  split; [exact Hd|]. split.
  - rewrite Hd, extract_without_product.
    + rewrite time_field_delete. reflexivity.
    + unfold dict_get. rewrite lookup_delete_eq. reflexivity.
  - rewrite Hd, <- time_field_none. split; congruence.
Qed.

(** ** The Drift Estimator: the loop of [detect_delays] *)

(** C7: the drift recorded for a slave whose time is read is the
    master's time minus the slave's, the float subtraction itself; when
    it is positive the slave's time is below the master's, and when it
    is negative the slave's time is above it. *)
Theorem detect_delays_drift (host_strs : list string) (w : World)
    (delays rtt_ms : list float) :
  result_of (detect_delays host_strs w) = Ok (Some (delays, rtt_ms)) ->
  exists parsed results status0 master_time,
    omap parse_host_port host_strs = Ok parsed /\
    result_of (poll_all parsed w) = Ok results /\
    map fst results !! 0%nat = Some status0 /\
    extract_precise_time status0 = Ok (Some master_time) /\
    forall i status slave_time,
      (1 <= i)%nat ->
      map fst results !! i = Some status ->
      extract_precise_time status = Ok (Some slave_time) ->
      exists drift,
        delays !! i = Some drift /\
        drift = (master_time - slave_time)%float /\
        ((0 <? drift)%float = true -> (slave_time <? master_time)%float = true) /\
        ((drift <? 0)%float = true -> (master_time <? slave_time)%float = true).
Proof.
  intros Hres.
  destruct (detect_delays_result _ _ _ _ Hres)
    as (parsed & results & status0 & mt & Hparse & Hpoll & _ & Hs0 & Hmt & _ & _ & Hall).
  exists parsed, results, status0, mt. repeat (split; [assumption|]).
  intros i status t Hi Hst Ht.
  assert (Hlt : (i < length host_strs)%nat).
  { destruct (poll_all_run parsed w) as (results' & Hpoll' & Hlen & _).
    rewrite Hpoll in Hpoll'. injection Hpoll' as <-.
    apply lookup_lt_Some in Hst. rewrite length_map, Hlen in Hst.
    rewrite <- (omap_length _ _ _ Hparse). exact Hst. }
  destruct (Hall i (conj Hi Hlt)) as (status' & Hst' & Hc).
  rewrite Hst in Hst'. injection Hst' as <-.
  destruct Hc as [(t' & Ht' & Hd) | [Hn _]]; [|congruence].
  rewrite Ht in Ht'. injection Ht' as <-.
  exists (mt - t)%float. split; [exact Hd|]. split; [reflexivity|].
  split; [apply sub_positive | apply sub_negative].
Qed.

(** ** The Sync Controller: [sync_once] and the loop of [main] *)

(** A cycle returns the drifts it was given or those of its re-measure. *)
Lemma sync_once_result (host_strs : list string) (delays delays' : list float)
    (thr : float) (w : World) :
  result_of (sync_once host_strs delays thr w) = Ok delays' ->
  delays' = delays \/
  exists w' rtt_ms, result_of (detect_delays host_strs w') = Ok (Some (delays', rtt_ms)).
Proof.
  unfold sync_once. rewrite result_bind. run_step.
  destruct (omap parse_host_port host_strs) as [parsed|e]; [|discriminate].
  rewrite result_bind. run_step.
  destruct (py_index parsed 0) as [[mh mp]|e]; [|discriminate].
  rewrite result_bind.
  destruct (result_of (get_vlc_status mh mp VLC_PASSWORD w)) as [status|e]; [|discriminate].
  rewrite result_bind. run_step.
  destruct (extract_precise_time status) as [[mt|]|e]; [| |discriminate].
  - rewrite result_bind. run_step. rewrite result_bind.
    match goal with |- context [result_of (foldM ?b ?l ?s ?w)] =>
      destruct (result_of (foldM b l s w)) as [[]|e] end; [|discriminate].
    rewrite result_bind.
    match goal with |- context [result_of (detect_delays host_strs ?w')] =>
      destruct (result_of (detect_delays host_strs w')) as [[[nd rtt]|]|e] eqn:Hd end;
      run_step; intros Hr; try discriminate; injection Hr as <-.
    + right. eauto.
    + left. reflexivity.
  - rewrite result_bind. run_step. intros Hr. injection Hr as <-. left. reflexivity.
Qed.

(** The invariant of the DriftState: one drift per endpoint, [0.0] in
    the master's slot. *)
Lemma sync_once_invariant (host_strs : list string) (delays delays' : list float)
    (thr : float) (w : World) :
  length delays = length host_strs -> delays !! 0%nat = Some 0%float ->
  result_of (sync_once host_strs delays thr w) = Ok delays' ->
  length delays' = length host_strs /\ delays' !! 0%nat = Some 0%float.
Proof.
  intros Hlen H0 Hres.
  destruct (sync_once_result _ _ _ _ _ Hres) as [-> | (w' & rtt & Hd)]; [split; assumption|].
  destruct (detect_delays_result _ _ _ _ Hd)
    as (_ & _ & _ & _ & _ & _ & _ & _ & _ & Hl & Hz & _).
  split; assumption.
Qed.

Lemma sync_loop_invariant (n : nat) (host_strs : list string)
    (thr interval : float) :
  forall (delays delays' : list float) (w : World),
    length delays = length host_strs -> delays !! 0%nat = Some 0%float ->
    result_of (sync_loop n host_strs delays thr interval w) = Ok delays' ->
    length delays' = length host_strs /\ delays' !! 0%nat = Some 0%float.
Proof.
  induction n as [|n IH]; intros delays delays' w Hlen H0; cbn [sync_loop].
  - intros Hr. injection Hr as <-. split; assumption.
  - rewrite result_bind.
    destruct (result_of (sync_once host_strs delays thr w)) as [d1|e] eqn:H1; [|discriminate].
    destruct (sync_once_invariant _ _ _ _ _ Hlen H0 H1) as [Hlen1 H01].
    rewrite result_bind. unfold result_of at 2, world_of at 1.
    destruct (sleep interval _) as [[[]|e] w1]; cbn [fst snd]; [|discriminate].
    apply IH; assumption.
Qed.

(** C8: the DriftState has one drift per endpoint and [0.0] in the
    master's slot when [main] creates it, after every cycle that starts
    from such a state, and so after any number of cycles of [main]. *)
Theorem drift_state_invariant (host_strs : list string) (thr : float) :
  host_strs <> [] ->
  drift_state_ok host_strs (initial_delays host_strs) /\
  (forall (delays delays' : list float) (w : World),
     drift_state_ok host_strs delays ->
     result_of (sync_once host_strs delays thr w) = Ok delays' ->
     drift_state_ok host_strs delays') /\
  (forall (interval : option float) (n : nat) (w : World) (delays : list float),
     result_of (main host_strs thr interval n w) = Ok delays ->
     drift_state_ok host_strs delays).
Proof.
  intros Hne.
  assert (Hinit : drift_state_ok host_strs (initial_delays host_strs)).
  { unfold initial_delays. split; [apply repeat_length|].
    apply lookup_repeat. destruct host_strs; [contradiction | cbn; lia]. }
  split; [exact Hinit|]. split.
  - intros delays delays' w [Hl Hz]. apply sync_once_invariant; assumption.
  - destruct Hinit as [Hl Hz]. intros [s|] n w delays; unfold main.
    + apply sync_loop_invariant; assumption.
    + apply sync_once_invariant; assumption.
Qed.

(** C4: when the master's time cannot be read, the cycle sends nothing
    but the master's status request and returns the drifts it was given. *)
Theorem sync_once_master_unavailable (host_strs : list string)
    (delays : list float) (thr : float) (w : World)
    (master : string * Z) (slaves : list (string * Z)) (status : pyval) :
  omap parse_host_port host_strs = Ok (master :: slaves) ->
  result_of (get_vlc_status (fst master) (snd master) VLC_PASSWORD w) = Ok status ->
  extract_precise_time status = Ok None ->
  result_of (sync_once host_strs delays thr w) = Ok delays /\
  seeks (trace_of (sync_once host_strs delays thr w)) = [] /\
  requests (trace_of (sync_once host_strs delays thr w)) = [status_request master].
Proof.
  intros Hparse Hst Hmt.
  assert (Hr : result_of (sync_once host_strs delays thr w) = Ok delays /\
               requests (trace_of (sync_once host_strs delays thr w))
                 = [status_request master]).
  { unfold sync_once. destruct master as [mh mp]. cbn [fst snd] in *.
    destruct (get_vlc_status_run mh mp VLC_PASSWORD w) as (_ & _ & Hreq).
    rewrite result_bind, trace_bind, Hparse. run_step.
    rewrite result_bind, trace_bind. run_step. cbn [py_index lookup list_lookup].
    rewrite result_bind, trace_bind, requests_app, Hreq, Hst.
    rewrite result_bind, trace_bind, Hmt. run_step.
    rewrite result_bind, trace_bind. run_step. split; reflexivity. }
  destruct Hr as [Hres Hreq]. split; [exact Hres|]. split; [|exact Hreq].
  rewrite seeks_requests, Hreq. reflexivity.
Qed.

Lemma seeks_of_seek_requests {A} (f : A -> string * Z) (target : Z) (l : list A) :
  List.filter is_seek (map (fun x => seek_request target (f x)) l)
  = map (fun x => seek_request target (f x)) l.
Proof. induction l as [|x l IH]; [reflexivity|]. cbn. rewrite IH. reflexivity. Qed.

Lemma seeks_of_status_requests (l : list (string * Z)) :
  List.filter is_seek (map status_request l) = [].
Proof. induction l as [|x l IH]; [reflexivity|]. cbn. exact IH. Qed.

(** The seeks of a cycle in which the master's time is read and is a
    real number: one to each slave that is not skipped, in order. *)
Lemma sync_once_seeks (host_strs : list string) (delays : list float)
    (thr : float) (w : World) (master : string * Z) (slaves : list (string * Z))
    (status : pyval) (mt : float) (target : Z) :
  omap parse_host_port host_strs = Ok (master :: slaves) ->
  result_of (get_vlc_status (fst master) (snd master) VLC_PASSWORD w) = Ok status ->
  extract_precise_time status = Ok (Some mt) ->
  seek_target mt 0 = Ok target ->
  (length (master :: slaves) <= length delays)%nat ->
  seeks (trace_of (sync_once host_strs delays thr w))
    = map (fun i => seek_request target (endpoint_at (master :: slaves) i))
          (corrected_slaves delays thr (length (master :: slaves))).
Proof.
  intros Hparse Hst Hmt Ht Hlen.
  rewrite seeks_requests,
    (sync_once_requests _ _ _ _ _ _ _ _ _ Hparse Hst Hmt Ht Hlen).
  unfold status_request at 1. cbn [List.filter is_seek].
  rewrite List.filter_app, seeks_of_status_requests, app_nil_r.
  apply (seeks_of_seek_requests (endpoint_at (master :: slaves))).
Qed.

Lemma map_nth_seq {A} (l : list A) (d : A) :
  map (fun i => nth i l d) (seq 0 (length l)) = l.
Proof.
  induction l as [|x l IH]; [reflexivity|].
  cbn [length seq map nth]. f_equal.
  rewrite <- seq_shift, map_map. exact IH.
Qed.

Lemma map_endpoint_at_slaves {B} (f : string * Z -> B) (master : string * Z)
    (slaves : list (string * Z)) :
  map (fun i => f (endpoint_at (master :: slaves) i))
      (slave_indices (length (master :: slaves)))
  = map f slaves.
Proof.
  unfold slave_indices, endpoint_at. cbn [length]. rewrite Nat.sub_succ, Nat.sub_0_r.
  rewrite <- seq_shift, map_map. cbn [nth].
  rewrite <- (map_nth_seq slaves (EmptyString, 0)) at 2. rewrite map_map. reflexivity.
Qed.

Lemma first_run_corrects_all (delays : list float) (thr : float) (n : nat) :
  first_run delays = true -> corrected_slaves delays thr n = slave_indices n.
Proof.
  intros Hf. unfold corrected_slaves, skip_seek. rewrite Hf. cbn [negb andb].
  induction (slave_indices n) as [|i l IH]; [reflexivity|]. cbn. rewrite IH. reflexivity.
Qed.

Lemma first_run_zeros (n : nat) : first_run (repeat 0%float n) = true.
Proof. induction n as [|n IH]; [reflexivity|]. cbn. exact IH. Qed.

(** C3: in a cycle that reads the master's time, the seeks go to
    exactly the slaves for which this is a first run or the absolute
    drift is at least the threshold; and it is a first run exactly when
    every drift is below [1e-6] in absolute value. *)
Theorem sync_once_corrects_iff (host_strs : list string) (delays : list float)
    (thr : float) (w : World) (master : string * Z) (slaves : list (string * Z))
    (status : pyval) (mt : float) :
  omap parse_host_port host_strs = Ok (master :: slaves) ->
  result_of (get_vlc_status (fst master) (snd master) VLC_PASSWORD w) = Ok status ->
  extract_precise_time status = Ok (Some mt) ->
  is_real mt = true ->
  (length (master :: slaves) <= length delays)%nat ->
  not_nan thr = true ->
  (forall d, In d delays -> not_nan d = true) ->
  (first_run delays = true <->
   forall d, In d delays -> (PrimFloat.abs d <? FIRST_RUN_EPS)%float = true) /\
  exists target,
    seek_target mt 0 = Ok target /\
    seeks (trace_of (sync_once host_strs delays thr w))
      = map (fun i => seek_request target (endpoint_at (master :: slaves) i))
            (List.filter
               (fun i => first_run delays
                         || (thr <=? PrimFloat.abs (nth i delays 0%float))%float)
               (slave_indices (length (master :: slaves)))).
Proof.
  intros Hparse Hst Hmt Hreal Hlen Hthr Hnan. split; [apply forallb_forall|].
  destruct (seek_target_real mt Hreal) as (z & _ & _ & _ & Ht & _).
  exists (Z.max z 0). split; [exact Ht|].
  rewrite (sync_once_seeks _ _ _ _ _ _ _ _ _ Hparse Hst Hmt Ht Hlen).
  f_equal. unfold corrected_slaves. apply List.filter_ext_in.
  intros i Hi. apply slave_indices_lt in Hi.
  apply skip_seek_policy; [|exact Hthr].
  apply Hnan, nth_In. lia.
Qed.

(** The cases of the specification: an all-zero state corrects every
    slave whatever the threshold; [[0.0, 0.3]] skips slave 1 for the
    threshold [1.0] and corrects it for [0.1]. *)
Example corrected_slaves_examples :
  (forall (n k : nat) (thr : float),
     corrected_slaves (repeat 0%float n) thr k = slave_indices k) /\
  corrected_slaves [0; 0x1.3333333333333p-2]%float 1 2 = [] /\
  corrected_slaves [0; 0x1.3333333333333p-2]%float 0x1.999999999999ap-4 2 = [1%nat].
Proof.
  split; [|split; vm_compute; reflexivity].
  intros n k thr. apply first_run_corrects_all, first_run_zeros.
Qed.

(** C2, as the code has it: a cycle begins with the status request to
    the master alone; when the master's time is read, the seeks follow
    it, and the status requests to all the endpoints come last. *)
Theorem sync_once_polls_master_first (host_strs : list string)
    (delays : list float) (thr : float) (w : World)
    (master : string * Z) (slaves : list (string * Z)) :
  omap parse_host_port host_strs = Ok (master :: slaves) ->
  (exists later,
     requests (trace_of (sync_once host_strs delays thr w))
       = status_request master :: later) /\
  (forall (status : pyval) (mt : float),
     result_of (get_vlc_status (fst master) (snd master) VLC_PASSWORD w) = Ok status ->
     extract_precise_time status = Ok (Some mt) ->
     is_real mt = true ->
     (length (master :: slaves) <= length delays)%nat ->
     exists corrections,
       List.filter is_seek corrections = corrections /\
       requests (trace_of (sync_once host_strs delays thr w))
         = status_request master :: corrections
           ++ map status_request (master :: slaves)).
Proof.
  intros Hparse. split.
  - unfold sync_once. destruct master as [mh mp].
    destruct (get_vlc_status_run mh mp VLC_PASSWORD w) as (_ & _ & Hreq).
    rewrite trace_bind, Hparse. run_step.
    rewrite trace_bind. run_step. cbn [py_index lookup list_lookup].
    rewrite trace_bind, requests_app, Hreq. eexists. reflexivity.
  - intros status mt Hst Hmt Hreal Hlen.
    destruct (seek_target_real mt Hreal) as (z & _ & _ & _ & Ht & _).
    eexists. split; [|apply (sync_once_requests _ _ _ _ _ _ _ _ _ Hparse Hst Hmt Ht Hlen)].
    apply (seeks_of_seek_requests (endpoint_at (master :: slaves))).
Qed.

(** C1, as the code has it: a slave whose time cannot be read gets the
    drift [0.0] from the re-measure; the seeks of a cycle are decided
    from the drifts it is given alone, so on a first run every slave is
    sent a seek, and in a later run a slave with drift [0.0] is skipped
    when the threshold is positive. *)
Theorem failed_poll_drift_and_correction :
  (forall (host_strs : list string) (w : World) (delays rtt_ms : list float),
     result_of (detect_delays host_strs w) = Ok (Some (delays, rtt_ms)) ->
     exists parsed results,
       omap parse_host_port host_strs = Ok parsed /\
       result_of (poll_all parsed w) = Ok results /\
       forall i status,
         (1 <= i)%nat -> map fst results !! i = Some status ->
         extract_precise_time status = Ok None ->
         delays !! i = Some 0%float) /\
  (forall (host_strs : list string) (delays : list float) (thr : float) (w : World)
          (master : string * Z) (slaves : list (string * Z))
          (status : pyval) (mt : float),
     omap parse_host_port host_strs = Ok (master :: slaves) ->
     result_of (get_vlc_status (fst master) (snd master) VLC_PASSWORD w) = Ok status ->
     extract_precise_time status = Ok (Some mt) ->
     is_real mt = true ->
     (length (master :: slaves) <= length delays)%nat ->
     exists target,
       seek_target mt 0 = Ok target /\
       seeks (trace_of (sync_once host_strs delays thr w))
         = map (fun i => seek_request target (endpoint_at (master :: slaves) i))
               (corrected_slaves delays thr (length (master :: slaves))) /\
       (first_run delays = true ->
        seeks (trace_of (sync_once host_strs delays thr w))
          = map (seek_request target) slaves) /\
       (first_run delays = false -> (0 <? thr)%float = true ->
        forall i, delays !! i = Some 0%float ->
                  ~ In i (corrected_slaves delays thr (length (master :: slaves))))).
Proof.
  split.
  - intros host_strs w delays rtt_ms Hres.
    destruct (detect_delays_result _ _ _ _ Hres)
      as (parsed & results & status0 & mt & Hparse & Hpoll & _ & _ & _ & _ & _ & Hall).
    exists parsed, results. repeat (split; [assumption|]).
    intros i status Hi Hst Hn.
    assert (Hlt : (i < length host_strs)%nat).
    { destruct (poll_all_run parsed w) as (results' & Hpoll' & Hlen & _).
      rewrite Hpoll in Hpoll'. injection Hpoll' as <-.
      apply lookup_lt_Some in Hst. rewrite length_map, Hlen in Hst.
      rewrite <- (omap_length _ _ _ Hparse). exact Hst. }
    destruct (Hall i (conj Hi Hlt)) as (status' & Hst' & Hc).
    rewrite Hst in Hst'. injection Hst' as <-.
    destruct Hc as [(t & Ht & _) | [_ Hd]]; [congruence | exact Hd].
  - intros host_strs delays thr w master slaves status mt Hparse Hst Hmt Hreal Hlen.
    destruct (seek_target_real mt Hreal) as (z & _ & _ & _ & Ht & _).
    exists (Z.max z 0). split; [exact Ht|].
    pose proof (sync_once_seeks _ _ thr _ _ _ _ _ _ Hparse Hst Hmt Ht Hlen) as Hseeks.
    split; [exact Hseeks|]. split.
    + intros Hf. rewrite Hseeks, (first_run_corrects_all _ _ _ Hf).
      apply (map_endpoint_at_slaves (seek_request (Z.max z 0))).
    + intros Hf Hthr i Hi Hin. unfold corrected_slaves in Hin.
      apply List.filter_In in Hin. destruct Hin as [_ Hkeep].
      rewrite (nth_lookup delays i 0%float), Hi in Hkeep.
      unfold skip_seek in Hkeep. rewrite Hf in Hkeep.
      cbn [negb andb default from_option id] in Hkeep.
      change (PrimFloat.abs 0) with 0%float in Hkeep.
      rewrite Hthr in Hkeep. discriminate.
Qed.

End Properties.

(** * Concrete runs *)

Import Sim.

(** The scenario of the specification: the master plays at
    [0.25 * 100 = 25.0], the slave reports [time = 20]; on a first run
    with the threshold [1.0] the slave is sent a seek to [25] and the
    re-measure records the drift [5.0]. *)
Example sync_once_scenario :
  result_of (sync_once hosts (initial_delays hosts) 1 two_players) = Ok [0; 5]%float /\
  requests (trace_of (sync_once hosts (initial_delays hosts) 1 two_players))
    = [EvStatus "m" 8080; EvSeek "s" 8080 25; EvStatus "m" 8080; EvStatus "s" 8080].
Proof. split; vm_compute; reflexivity. Qed.

(** A port in the host string, and a port that is not a number. *)
Example parse_host_port_examples :
  omap parse_host_port ["a"; "b:9000"] = Ok [("a", 8080); ("b", 9000)] /\
  parse_host_port "b:x" = Raise ValueError.
Proof. split; reflexivity. Qed.

(** A target of [25.75] seconds is sent as [25]. *)
Lemma seek_vlc_to_time_target_witness :
  is_real 25.75 = true /\
  exists z fl : Z,
    py_int 25.75 = Ok z /\ py_floor 25.75 = Ok fl /\
    let target := Z.max z 0 in
    target = Z.max fl 0 /\ 0 <= target /\
    result_of (seek_vlc_to_time "s" 8080 VLC_PASSWORD 25.75 5 two_players)
      = Ok (fst (http_seek "s" 8080 VLC_PASSWORD target two_players), target) /\
    requests (trace_of (seek_vlc_to_time "s" 8080 VLC_PASSWORD 25.75 5 two_players))
      = [EvSeek "s" 8080 target].
Proof.
  split; [reflexivity|].
  apply (seek_vlc_to_time_target "s" 8080 VLC_PASSWORD 25.75 5 two_players).
  reflexivity.
Defined.

(** The first payload of the specification, through the policy. *)
Lemma extract_precise_time_policy_witness :
  extract_precise_time
    (PDict (list_to_map [("position", PFloat 0.5); ("length", PInt 120)]))
  = Ok (Some (0.5 * 120)%float).
Proof.
  apply (proj1 (extract_precise_time_policy
                  (list_to_map [("position", PFloat 0.5); ("length", PInt 120)])));
    vm_compute; reflexivity.
Defined.

(** A position that is not a number: the [time] field is used. *)
Lemma extract_precise_time_fallback_witness :
  let d : gmap string pyval :=
    list_to_map [("position", PStr "abc"); ("length", PInt 120); ("time", PInt 42)] in
  is_not_none (dict_get d "position") = true /\
  py_truthy (dict_get d "length") = true /\
  py_float (dict_get d "position") = Raise ValueError /\
  extract_precise_time (PDict d) = Ok (Some 42%float).
Proof.
  cbn zeta.
  set (d := list_to_map
              [("position", PStr "abc"); ("length", PInt 120); ("time", PInt 42)]
            : gmap string pyval).
  assert (Hp : is_not_none (dict_get d "position") = true) by (vm_compute; reflexivity).
  assert (Hl : py_truthy (dict_get d "length") = true) by (vm_compute; reflexivity).
  assert (Hf : py_float (dict_get d "position") = Raise ValueError)
    by (vm_compute; reflexivity).
  repeat (split; [assumption|]).
  rewrite (proj1 (extract_precise_time_fallback d Hp Hl
                    (or_introl (ex_intro _ ValueError Hf)))).
  vm_compute. reflexivity.
Defined.

(** The scenario of the specification: master at 25.0, slave at 20. *)
Lemma detect_delays_drift_witness :
  result_of (detect_delays hosts two_players)
    = Ok (Some ([0; 5]%float, [1000; 1000]%float)) /\
  exists parsed results status0 master_time,
    omap parse_host_port hosts = Ok parsed /\
    result_of (poll_all parsed two_players) = Ok results /\
    map fst results !! 0%nat = Some status0 /\
    extract_precise_time status0 = Ok (Some master_time) /\
    forall i status slave_time,
      (1 <= i)%nat ->
      map fst results !! i = Some status ->
      extract_precise_time status = Ok (Some slave_time) ->
      exists drift,
        [0; 5]%float !! i = Some drift /\
        drift = (master_time - slave_time)%float /\
        ((0 <? drift)%float = true -> (slave_time <? master_time)%float = true) /\
        ((drift <? 0)%float = true -> (master_time <? slave_time)%float = true).
Proof.
  assert (Hres : result_of (detect_delays hosts two_players)
                 = Ok (Some ([0; 5]%float, [1000; 1000]%float)))
    by (vm_compute; reflexivity).
  split; [exact Hres|].
  exact (detect_delays_drift hosts two_players _ _ Hres).
Defined.

Lemma drift_state_invariant_witness :
  hosts <> [] /\
  result_of (main hosts 1 (Some 5%float) 2 two_players) = Ok [0; 5]%float /\
  drift_state_ok hosts [0; 5]%float.
Proof.
  assert (Hne : hosts <> []) by discriminate.
  assert (Hres : result_of (main hosts 1 (Some 5%float) 2 two_players) = Ok [0; 5]%float)
    by (vm_compute; reflexivity).
  split; [exact Hne|]. split; [exact Hres|].
  exact (proj2 (proj2 (drift_state_invariant hosts 1 Hne)) _ _ _ _ Hres).
Defined.

(** Nobody answers: the drifts come back as they were. *)
Lemma sync_once_master_unavailable_witness :
  omap parse_host_port hosts = Ok endpoints /\
  result_of (get_vlc_status "m" 8080 VLC_PASSWORD nobody) = Ok PNone /\
  extract_precise_time PNone = Ok None /\
  result_of (sync_once hosts [0; 0x1.3333333333333p-2]%float 1 nobody)
    = Ok [0; 0x1.3333333333333p-2]%float /\
  seeks (trace_of (sync_once hosts [0; 0x1.3333333333333p-2]%float 1 nobody)) = [] /\
  requests (trace_of (sync_once hosts [0; 0x1.3333333333333p-2]%float 1 nobody))
    = [EvStatus "m" 8080].
Proof.
  assert (Hp : omap parse_host_port hosts = Ok (("m", 8080) :: [("s", 8080)]))
    by reflexivity.
  assert (Hs : result_of (get_vlc_status (fst ("m", 8080)) (snd ("m", 8080))
                            VLC_PASSWORD nobody) = Ok PNone) by reflexivity.
  assert (He : extract_precise_time PNone = Ok None) by reflexivity.
  split; [exact Hp|]. split; [exact Hs|]. split; [exact He|].
  exact (sync_once_master_unavailable hosts [0; 0x1.3333333333333p-2]%float 1 nobody
           ("m", 8080) [("s", 8080)] PNone Hp Hs He).
Defined.


(** Drifts [[0.0, 0.3]] with the threshold [0.1]: the slave is sent a
    seek to [25]. *)
Lemma sync_once_corrects_iff_witness :
  let delays := [0; 0x1.3333333333333p-2]%float in
  let thr := 0x1.999999999999ap-4%float in
  omap parse_host_port hosts = Ok endpoints /\
  result_of (get_vlc_status "m" 8080 VLC_PASSWORD two_players) = Ok master_payload /\
  extract_precise_time master_payload = Ok (Some 25%float) /\
  is_real 25 = true /\
  (length endpoints <= length delays)%nat /\
  not_nan thr = true /\
  first_run delays = false /\
  seeks (trace_of (sync_once hosts delays thr two_players)) = [EvSeek "s" 8080 25].
Proof.
  cbn zeta.
  assert (Hp : omap parse_host_port hosts = Ok (("m", 8080) :: [("s", 8080)]))
    by reflexivity.
  assert (Hs : result_of (get_vlc_status (fst ("m", 8080)) (snd ("m", 8080))
                            VLC_PASSWORD two_players) = Ok master_payload)
    by reflexivity.
  assert (He : extract_precise_time master_payload = Ok (Some 25%float))
    by (vm_compute; reflexivity).
  assert (Hr : is_real 25 = true) by reflexivity.
  assert (Hl : (length endpoints <= length [0; 0x1.3333333333333p-2]%float)%nat)
    by (cbn; lia).
  assert (Ht : not_nan 0x1.999999999999ap-4 = true) by reflexivity.
  assert (Hn : forall d, In d [0; 0x1.3333333333333p-2]%float -> not_nan d = true).
  { intros d [<- | [<- | []]]; reflexivity. }
  repeat (split; [first [assumption | reflexivity]|]).
  destruct (sync_once_corrects_iff hosts [0; 0x1.3333333333333p-2]%float
              0x1.999999999999ap-4%float two_players ("m", 8080) [("s", 8080)]
              master_payload 25%float Hp Hs He Hr Hl Ht Hn)
    as [_ (target & Htarget & Hseeks)].
  rewrite Hseeks. vm_compute in Htarget. injection Htarget as <-.
  vm_compute. reflexivity.
Defined.

(** C2 fails: on a first run the seek to the slave is sent when only
    the master has been polled. *)
Lemma seek_precedes_slave_poll :
  requests (trace_of (sync_once hosts [0; 0]%float 1 two_players))
    = [EvStatus "m" 8080; EvSeek "s" 8080 25; EvStatus "m" 8080; EvStatus "s" 8080] /\
  polled_before_seek endpoints []
    (trace_of (sync_once hosts [0; 0]%float 1 two_players)) = false.
Proof. split; vm_compute; reflexivity. Qed.

Lemma sync_once_polls_master_first_witness :
  omap parse_host_port hosts = Ok endpoints /\
  result_of (get_vlc_status "m" 8080 VLC_PASSWORD two_players) = Ok master_payload /\
  extract_precise_time master_payload = Ok (Some 25%float) /\
  is_real 25 = true /\
  (length endpoints <= length [0; 0]%float)%nat /\
  exists corrections,
    List.filter is_seek corrections = corrections /\
    requests (trace_of (sync_once hosts [0; 0]%float 1 two_players))
      = EvStatus "m" 8080 :: corrections ++ [EvStatus "m" 8080; EvStatus "s" 8080].
Proof.
  assert (Hp : omap parse_host_port hosts = Ok (("m", 8080) :: [("s", 8080)]))
    by reflexivity.
  assert (Hs : result_of (get_vlc_status (fst ("m", 8080)) (snd ("m", 8080))
                            VLC_PASSWORD two_players) = Ok master_payload)
    by reflexivity.
  assert (He : extract_precise_time master_payload = Ok (Some 25%float))
    by (vm_compute; reflexivity).
  assert (Hr : is_real 25 = true) by reflexivity.
  assert (Hl : (length endpoints <= length [0; 0]%float)%nat) by (cbn; lia).
  repeat (split; [first [assumption | reflexivity]|]).
  exact (proj2 (sync_once_polls_master_first hosts [0; 0]%float 1 two_players
                  ("m", 8080) [("s", 8080)] Hp)
           master_payload 25%float Hs He Hr Hl).
Defined.

(** C1 fails: on a first run the slave that cannot be reached is sent a
    seek all the same, while its drift is recorded as [0.0]. *)
Lemma failed_poll_is_corrected :
  ~ (fst (http_status "dead" 8080 VLC_PASSWORD two_players) = None ->
     first_run [0; 0]%float = true ->
     (exists delays',
        result_of (sync_once hosts_dead [0; 0]%float 1 two_players) = Ok delays' /\
        delays' !! 1%nat = Some 0%float) /\
     no_seek_to ("dead", 8080)
       (trace_of (sync_once hosts_dead [0; 0]%float 1 two_players)) = true).
Proof.
  intros Hclaim. destruct (Hclaim eq_refl eq_refl) as [_ Hno].
  vm_compute in Hno. discriminate.
Qed.

Lemma failed_poll_drift_and_correction_witness :
  omap parse_host_port hosts_dead = Ok endpoints_dead /\
  result_of (get_vlc_status "m" 8080 VLC_PASSWORD two_players) = Ok master_payload /\
  extract_precise_time master_payload = Ok (Some 25%float) /\
  is_real 25 = true /\
  (length endpoints_dead <= length [0; 0]%float)%nat /\
  first_run [0; 0]%float = true /\
  seeks (trace_of (sync_once hosts_dead [0; 0]%float 1 two_players))
    = [EvSeek "dead" 8080 25].
Proof.
  assert (Hp : omap parse_host_port hosts_dead = Ok (("m", 8080) :: [("dead", 8080)]))
    by reflexivity.
  assert (Hs : result_of (get_vlc_status (fst ("m", 8080)) (snd ("m", 8080))
                            VLC_PASSWORD two_players) = Ok master_payload)
    by reflexivity.
  assert (He : extract_precise_time master_payload = Ok (Some 25%float))
    by (vm_compute; reflexivity).
  assert (Hr : is_real 25 = true) by reflexivity.
  assert (Hl : (length endpoints_dead <= length [0; 0]%float)%nat) by (cbn; lia).
  assert (Hf : first_run [0; 0]%float = true) by reflexivity.
  repeat (split; [first [assumption | reflexivity]|]).
  destruct (proj2 failed_poll_drift_and_correction hosts_dead [0; 0]%float 1%float
              two_players ("m", 8080) [("dead", 8080)] master_payload 25%float
              Hp Hs He Hr Hl)
    as (target & Htarget & _ & Hfirst & _).
  rewrite (Hfirst Hf). vm_compute in Htarget. injection Htarget as <-. reflexivity.
Defined.

(** * Further properties *)

Section Further.

Context `{PyEnv}.

(** ** The Host Registry: [parse_host_port] *)

Lemma split_colon_some (s a b : string) :
  split_colon s = Some (a, b) -> s = host_colon_port a b /\ has_colon a = false.
Proof.
  revert a b. induction s as [|c r IH]; intros a b Hs; cbn [split_colon] in Hs;
    [discriminate|].
  destruct (Ascii.eqb_spec c ":"%char) as [->|Hc].
  - injection Hs as <- <-. split; reflexivity.
  - destruct (split_colon r) as [[a' b']|]; [|discriminate].
    injection Hs as <- <-. destruct (IH a' b' eq_refl) as [-> Ha].
    split; [reflexivity|]. cbn [has_colon]. rewrite Ha.
    destruct (Ascii.eqb_spec c ":"%char); [contradiction | reflexivity].
Qed.

Lemma split_colon_none (s : string) :
  split_colon s = None <-> has_colon s = false.
Proof.
  induction s as [|c r IH]; cbn [split_colon has_colon]; [split; reflexivity|].
  destruct (Ascii.eqb c ":"%char); cbn [orb]; [split; discriminate|].
  rewrite <- IH. destruct (split_colon r) as [[a b]|]; split; congruence.
Qed.

Lemma split_colon_host_colon_port (a b : string) :
  has_colon a = false -> split_colon (host_colon_port a b) = Some (a, b).
Proof.
  unfold host_colon_port.
  induction a as [|c a IH]; cbn [has_colon]; intros Ha.
  - reflexivity.
  - apply orb_false_elim in Ha. destruct Ha as [Hc Ha].
    change (split_colon (String c (String.append a (String ":"%char b)))
            = Some (String c a, b)).
    cbn [split_colon]. rewrite Hc, (IH Ha). reflexivity.
Qed.

(** X1: [parse_host_port] succeeds with [(host, port)] exactly on the
    two accepted forms: the host alone, colon-free, with the default
    port; or host, colon, and a port string that [int] reads. The host
    it returns never holds a colon, and the port is not range-checked. *)
Theorem parse_host_port_ok_iff (s host : string) (port : Z) :
  parse_host_port s = Ok (host, port) <->
  has_colon host = false /\
  ((s = host /\ port = DEFAULT_PORT) \/
   exists port_str, s = host_colon_port host port_str /\ int_of_str port_str = Some port).
Proof.
  unfold parse_host_port. split.
  - destruct (split_colon s) as [[a b]|] eqn:Hs.
    + apply split_colon_some in Hs. destruct Hs as [-> Ha].
      destruct (int_of_str b) as [z|] eqn:Hb; [|discriminate].
      intros Hr. injection Hr as <- <-. split; [exact Ha|]. right. eauto.
    + apply split_colon_none in Hs. intros Hr. injection Hr as <- <-.
      split; [exact Hs|]. left. split; reflexivity.
  - intros [Hh [[-> ->] | (ps & -> & Hp)]].
    + apply split_colon_none in Hh. rewrite Hh. reflexivity.
    + rewrite (split_colon_host_colon_port _ _ Hh), Hp. reflexivity.
Qed.

(** X2: the only way [parse_host_port] fails is [ValueError], raised
    exactly when the text after the first colon is not read by [int];
    a string without a colon never fails. *)
Theorem parse_host_port_raise_iff (s : string) (e : exn) :
  parse_host_port s = Raise e <->
  e = ValueError /\
  exists host port_str,
    has_colon host = false /\ s = host_colon_port host port_str /\
    int_of_str port_str = None.
Proof.
  unfold parse_host_port. split.
  - destruct (split_colon s) as [[a b]|] eqn:Hs; [|discriminate].
    apply split_colon_some in Hs. destruct Hs as [-> Ha].
    destruct (int_of_str b) as [z|] eqn:Hb; [discriminate|].
    intros Hr. injection Hr as <-. split; [reflexivity|]. eauto.
  - intros [-> (host & ps & Hh & -> & Hp)].
    rewrite (split_colon_host_colon_port _ _ Hh), Hp. reflexivity.
Qed.

Lemma parse_host_port_raises_value_error (s : string) (e : exn) :
  parse_host_port s = Raise e -> e = ValueError.
Proof.
  unfold parse_host_port. destruct (split_colon s) as [[a b]|]; [|discriminate].
  destruct (int_of_str b); [discriminate|]. intros Hr. injection Hr as <-. reflexivity.
Qed.

Lemma omap_raise (hosts : list string) (h : string) (e : exn) :
  In h hosts -> parse_host_port h = Raise e ->
  omap parse_host_port hosts = Raise ValueError.
Proof.
  induction hosts as [|x hosts IH]; intros Hin Hh; [destruct Hin|].
  cbn [omap]. destruct (parse_host_port x) as [y|e'] eqn:Hx.
  - destruct Hin as [-> | Hin]; [congruence|].
    cbn [obind]. rewrite (IH Hin Hh). reflexivity.
  - apply parse_host_port_raises_value_error in Hx. subst e'. reflexivity.
Qed.

(** X3: nothing is sent when the host list cannot be used: with a
    malformed host anywhere in the list both [sync_once] and
    [detect_delays] raise [ValueError] before any request or printed
    line; with the empty list [sync_once] raises [IndexError] and
    [detect_delays] returns [None], again without any event. *)
Theorem no_request_without_hosts (host_strs : list string) (delays : list float)
    (thr : float) (w : World) :
  ((exists h e, In h host_strs /\ parse_host_port h = Raise e) ->
   sync_once host_strs delays thr w = (Raise ValueError, w, []) /\
   detect_delays host_strs w = (Raise ValueError, w, [])) /\
  (host_strs = [] ->
   sync_once host_strs delays thr w = (Raise IndexError, w, []) /\
   detect_delays host_strs w = (Ok None, w, [])).
Proof.
  split.
  - intros (h & e & Hin & Hh). pose proof (omap_raise _ _ _ Hin Hh) as Hr.
    unfold sync_once, detect_delays, bind, lift. rewrite Hr.
    destruct host_strs; [destruct Hin|]. split; reflexivity.
  - intros ->. split; reflexivity.
Qed.

(** ** The Correction Commander on times that are not real *)

Lemma seek_target_not_real (t : float) :
  (Prim2SF t = S754_nan -> seek_target t 0 = Raise ValueError) /\
  (Prim2SF t = S754_infinity false -> seek_target t 0 = Raise OverflowError) /\
  (Prim2SF t = S754_infinity true -> seek_target t 0 = Ok 0).
Proof.
  unfold seek_target, py_max, py_int.
  rewrite ltb_spec, Prim2SF_zero.
  assert (Hadd := add_spec t 0). rewrite Prim2SF_zero in Hadd.
  split; [|split]; intros Ht; rewrite Ht in Hadd; cbn in Hadd; rewrite Hadd; cbn.
  - rewrite Hadd. reflexivity.
  - rewrite Hadd. reflexivity.
  - reflexivity.
Qed.

Lemma seek_target_nonneg (t : float) (v : Z) : seek_target t 0 = Ok v -> 0 <= v.
Proof.
  destruct (seek_target_not_real t) as (Hnan & Hpinf & Hninf).
  destruct (Prim2SF t) as [s|[|]| |s m e] eqn:Ht.
  - destruct (seek_target_real t) as (z & _ & _ & _ & Hz & _).
    { unfold is_real. rewrite Ht. reflexivity. }
    rewrite Hz. intros Hv. injection Hv as <-. lia.
  - rewrite (Hninf eq_refl). intros Hv. injection Hv as <-. lia.
  - rewrite (Hpinf eq_refl). discriminate.
  - rewrite (Hnan eq_refl). discriminate.
  - destruct (seek_target_real t) as (z & _ & _ & _ & Hz & _).
    { unfold is_real. rewrite Ht. reflexivity. }
    rewrite Hz. intros Hv. injection Hv as <-. lia.
Qed.

(** X4: a seek to a time that is not a real number: for NaN [int]
    raises [ValueError] and for plus infinity [OverflowError], in both
    cases before any request is sent; minus infinity is clamped and
    sent as target [0]. *)
Theorem seek_vlc_to_time_not_real (host : string) (port : Z) (password : string)
    (t delta : float) (w : World) :
  (Prim2SF t = S754_nan ->
   seek_vlc_to_time host port password t delta w = (Raise ValueError, w, [])) /\
  (Prim2SF t = S754_infinity false ->
   seek_vlc_to_time host port password t delta w = (Raise OverflowError, w, [])) /\
  (Prim2SF t = S754_infinity true ->
   result_of (seek_vlc_to_time host port password t delta w)
     = Ok (fst (http_seek host port password 0 w), 0) /\
   requests (trace_of (seek_vlc_to_time host port password t delta w))
     = [EvSeek host port 0]).
Proof.
  destruct (seek_target_not_real t) as (Hnan & Hpinf & Hninf).
  split; [|split]; intros Ht.
  - unfold seek_vlc_to_time, bind, lift. rewrite (Hnan Ht). reflexivity.
  - unfold seek_vlc_to_time, bind, lift. rewrite (Hpinf Ht). reflexivity.
  - destruct (seek_vlc_to_time_run host port password t delta 0 w (Hninf Ht))
      as (Hres & _ & Hreq).
    split; assumption.
Qed.

(** ** The Time Extractor on a length that is not a number *)

(** X5: a NaN length counts as present: with a position that converts,
    the result is the NaN product, whatever the [time] field holds;
    the fallback to [time] is not taken. *)
Theorem extract_precise_time_nan_length (d : gmap string pyval) (p l : float) :
  is_not_none (dict_get d "position") = true ->
  py_float (dict_get d "position") = Ok p ->
  dict_get d "length" = PFloat l ->
  Prim2SF l = S754_nan ->
  extract_precise_time (PDict d) = Ok (Some (p * l)%float) /\
  Prim2SF (p * l)%float = S754_nan /\
  seek_target (p * l)%float 0 = Raise ValueError.
Proof.
  intros Hpos Hp Hlen Hl.
  assert (Hnan : Prim2SF (p * l)%float = S754_nan).
  { rewrite mul_spec, Hl. unfold SF64mul. destruct (Prim2SF p); reflexivity. }
  split; [|split; [exact Hnan | apply seek_target_not_real; exact Hnan]].
  cbn. rewrite Hpos, Hlen. cbn [py_truthy andb].
  rewrite FloatAxioms.eqb_spec, Hl. cbn [SFeqb SFcompare negb].
  unfold position_times_length. rewrite Hp. reflexivity.
Qed.

(** ** What a cycle may do *)

Section Emits.

Variable P : event -> Prop.
Hypothesis P_print : forall m, P (EvPrint m).

Lemma emits_ret {A} (a : A) : emits P (ret a).
Proof. intros w. constructor. Qed.

Lemma emits_lift {A} (o : outcome A) : emits P (lift o).
Proof. intros w. constructor. Qed.

Lemma emits_print (m : msg) : emits P (print m).
Proof. intros w. constructor; [apply P_print | constructor]. Qed.

Lemma emits_bind {A B} (c : M A) (k : A -> M B) :
  emits P c ->
  (forall a, (exists w, result_of (c w) = Ok a) -> emits P (k a)) ->
  emits P (bind c k).
Proof.
  intros Hc Hk w. rewrite trace_bind. apply List.Forall_app. split; [apply Hc|].
  destruct (result_of (c w)) as [a|e] eqn:Hr; [|constructor].
  apply Hk. exists w. exact Hr.
Qed.

Lemma emits_foldM {A S} (body : A -> S -> M S) (l : list A) :
  (forall x s, In x l -> emits P (body x s)) ->
  forall s, emits P (foldM body l s).
Proof.
  induction l as [|x l IH]; intros Hb s; cbn [foldM].
  - apply emits_ret.
  - apply emits_bind; [apply Hb; left; reflexivity|].
    intros s1 _. apply IH. intros y s2 Hy. apply Hb. right. exact Hy.
Qed.

Lemma emits_mapM {A B} (f : A -> M B) (l : list A) :
  (forall x, In x l -> emits P (f x)) -> emits P (mapM f l).
Proof.
  induction l as [|x l IH]; intros Hf; cbn [mapM].
  - apply emits_ret.
  - apply emits_bind; [apply Hf; left; reflexivity|]. intros y _.
    apply emits_bind; [|intros ys _; apply emits_ret].
    apply IH. intros z Hz. apply Hf. right. exact Hz.
Qed.

Lemma emits_get_vlc_status (host : string) (port : Z) (password : string) :
  P (EvStatus host port) -> emits P (get_vlc_status host port password).
Proof.
  intros Hs w. unfold get_vlc_status, trace_of.
  destruct (http_status host port password w) as [[v|] w1]; cbn [snd];
    repeat constructor; auto.
Qed.

Lemma emits_timed_status_request (host : string) (port : Z) (password : string) :
  P (EvStatus host port) -> emits P (timed_status_request host port password).
Proof.
  intros Hs. unfold timed_status_request.
  apply emits_bind.
  { intros w. unfold trace_of. destruct (perf_counter w). constructor. }
  intros t0 _. apply emits_bind; [apply emits_get_vlc_status; exact Hs|].
  intros status _. apply emits_bind; [|intros; apply emits_ret].
  intros w. unfold trace_of. destruct (perf_counter w). constructor.
Qed.

Lemma emits_seek_vlc_to_time (host : string) (port : Z) (password : string)
    (t delta : float) :
  (forall v, seek_target t 0 = Ok v -> P (EvSeek host port v)) ->
  emits P (seek_vlc_to_time host port password t delta).
Proof.
  intros Hs. unfold seek_vlc_to_time.
  apply emits_bind; [apply emits_lift|]. intros target [w Ht]. cbn [result_of lift fst] in Ht.
  apply emits_bind.
  { intros w'. unfold trace_of.
    destruct (http_seek host port password target w'). cbn [snd].
    constructor; [apply Hs; exact Ht | constructor]. }
  intros [|] _; [apply emits_ret|].
  apply emits_bind; [apply emits_print | intros; apply emits_ret].
Qed.

Lemma emits_detect_slave (parsed : list (string * Z)) (statuses : list pyval)
    (rtt_ms : list float) (mt : float) (i : nat) (delays : list float) :
  emits P (detect_slave parsed statuses rtt_ms mt i delays).
Proof.
  unfold detect_slave.
  apply emits_bind; [apply emits_lift | intros [host port] _].
  apply emits_bind; [apply emits_lift | intros status _].
  apply emits_bind; [apply emits_lift | intros slave_time _].
  apply emits_bind; [apply emits_lift | intros rtt _].
  apply emits_bind; [apply emits_print | intros _ _].
  destruct slave_time as [slave_time|];
    (apply emits_bind; [apply emits_print | intros; apply emits_ret]).
Qed.

Lemma emits_detect_delays (host_strs : list string) (parsed : list (string * Z)) :
  omap parse_host_port host_strs = Ok parsed ->
  (forall hp, In hp parsed -> P (status_request hp)) ->
  emits P (detect_delays host_strs).
Proof.
  intros Hparse Hs. unfold detect_delays.
  destruct host_strs as [|h0 hs]; [apply emits_ret|].
  apply emits_bind; [apply emits_lift|]. intros parsed0 [w Hp].
  cbn [result_of lift fst] in Hp. rewrite Hparse in Hp. injection Hp as <-.
  apply emits_bind; [apply emits_print | intros _ _].
  apply emits_bind.
  { apply emits_mapM. intros hp Hin. apply emits_timed_status_request.
    apply (Hs hp Hin). }
  intros results _.
  apply emits_bind; [apply emits_lift | intros status0 _].
  apply emits_bind; [apply emits_lift | intros [mt|] _].
  - apply emits_bind; [apply emits_lift | intros rtt0 _].
    apply emits_bind; [apply emits_print | intros _ _].
    apply emits_bind; [|intros; apply emits_ret].
    apply emits_foldM. intros; apply emits_detect_slave.
  - apply emits_bind; [apply emits_print | intros; apply emits_ret].
Qed.

End Emits.

Lemma py_index_in_tl {A} (l : list A) (i : nat) (x : A) :
  (1 <= i)%nat -> py_index l i = Ok x -> In x (tl l).
Proof.
  intros Hi. unfold py_index. destruct (l !! i) as [y|] eqn:Hl; [|discriminate].
  intros Hx. injection Hx as <-.
  destruct l as [|z l]; [discriminate|]. destruct i as [|j]; [lia|].
  cbn in Hl. apply list_elem_of_In, (list_elem_of_lookup_2 l j). exact Hl.
Qed.

(** Every event of a cycle is one a cycle over the parsed endpoints may
    cause. *)
Lemma sync_once_emits (host_strs : list string) (delays : list float)
    (thr : float) (parsed : list (string * Z)) :
  omap parse_host_port host_strs = Ok parsed ->
  emits (cycle_event parsed) (sync_once host_strs delays thr).
Proof.
  intros Hparse.
  assert (Hprint : forall m, cycle_event parsed (EvPrint m)) by (intros; exact I).
  unfold sync_once.
  apply emits_bind; [apply emits_lift|]. intros parsed0 [w Hp].
  cbn [result_of lift fst] in Hp. rewrite Hparse in Hp. injection Hp as <-.
  apply emits_bind; [apply emits_lift|]. intros [mh mp] [w0 Hm]. cbn [result_of lift fst] in Hm.
  assert (Hmaster : In (mh, mp) parsed).
  { unfold py_index in Hm. destruct (parsed !! 0%nat) as [x|] eqn:Hx; [|discriminate].
    injection Hm as ->. apply list_elem_of_In, (list_elem_of_lookup_2 parsed 0). exact Hx. }
  apply emits_bind; [apply emits_get_vlc_status; [exact Hprint | exact Hmaster]|].
  intros status _.
  apply emits_bind; [apply emits_lift | intros [mt|] _].
  - apply emits_bind; [apply emits_print; exact Hprint | intros _ _].
    apply emits_bind.
    + apply emits_foldM. intros i [] Hi. apply slave_indices_lt in Hi.
      unfold sync_slave.
      apply emits_bind; [apply emits_lift|]. intros [host port] [w1 Hhp]. cbn [result_of lift fst] in Hhp.
      apply emits_bind; [apply emits_lift | intros drift _].
      destruct (skip_seek (first_run delays) drift thr);
        [apply emits_print; exact Hprint|].
      apply emits_bind.
      * apply emits_seek_vlc_to_time; [exact Hprint|].
        intros v Hv. split.
        -- apply (py_index_in_tl parsed i); [lia | exact Hhp].
        -- apply (seek_target_nonneg mt v Hv).
      * intros [[|] target] _; apply emits_print; exact Hprint.
    + intros _ _.
      apply emits_bind.
      * apply (emits_detect_delays _ Hprint host_strs parsed Hparse).
        intros [h p] Hin. exact Hin.
      * intros [[nd rtt]|] _; apply emits_ret.
  - apply emits_bind; [apply emits_print; exact Hprint | intros; apply emits_ret].
Qed.

(** X6: a cycle talks to the listed endpoints only: every status
    request goes to an endpoint of the parsed host list, and every
    seek to one of its slaves (an entry after the first), however the
    cycle ends. *)
Theorem sync_once_contacts_only_listed (host_strs : list string)
    (delays : list float) (thr : float) (w : World) (parsed : list (string * Z))
    (host : string) (port : Z) :
  omap parse_host_port host_strs = Ok parsed ->
  (In (EvStatus host port) (trace_of (sync_once host_strs delays thr w)) ->
   In (host, port) parsed) /\
  (forall val,
     In (EvSeek host port val) (trace_of (sync_once host_strs delays thr w)) ->
     In (host, port) (tl parsed)).
Proof.
  intros Hparse.
  pose proof (sync_once_emits host_strs delays thr parsed Hparse w) as Hall.
  rewrite List.Forall_forall in Hall. split.
  - intros Hin. apply (Hall _ Hin).
  - intros val Hin. apply (Hall _ Hin).
Qed.

(** X7: no seek of a cycle carries a negative target, whatever time the
    master reports and however the cycle ends. *)
Theorem sync_once_seek_targets_nonneg (host_strs : list string)
    (delays : list float) (thr : float) (w : World)
    (host : string) (port : Z) (val : Z) :
  In (EvSeek host port val) (trace_of (sync_once host_strs delays thr w)) ->
  0 <= val.
Proof.
  destruct (omap parse_host_port host_strs) as [parsed|e] eqn:Hparse.
  - intros Hin.
    pose proof (sync_once_emits host_strs delays thr parsed Hparse w) as Hall.
    rewrite List.Forall_forall in Hall. apply (Hall _ Hin).
  - unfold sync_once, bind, lift. rewrite Hparse. intros [].
Qed.

(** X8: the loop of [main] sleeps once after each cycle and nowhere
    else: a loop that completes [n] cycles has exactly [n] sleeps in
    its trace. *)
Theorem sync_loop_sleeps (n : nat) (host_strs : list string) (thr interval : float) :
  forall (delays delays' : list float) (w : World),
    result_of (sync_loop n host_strs delays thr interval w) = Ok delays' ->
    length (List.filter is_sleep (trace_of (sync_loop n host_strs delays thr interval w)))
      = n.
Proof.
  induction n as [|n IH]; intros delays delays' w; cbn [sync_loop]; [reflexivity|].
  rewrite result_bind, trace_bind, List.filter_app, length_app.
  destruct (result_of (sync_once host_strs delays thr w)) as [d1|e] eqn:H1; [|discriminate].
  assert (Hno : List.filter is_sleep (trace_of (sync_once host_strs delays thr w)) = []).
  { destruct (omap parse_host_port host_strs) as [parsed|e] eqn:Hparse.
    - pose proof (sync_once_emits host_strs delays thr parsed Hparse w) as Hall.
      induction Hall as [|ev tr Hev _ IHtr]; [reflexivity|].
      destruct ev; cbn; try exact IHtr. destruct Hev.
    - unfold sync_once, bind, lift. rewrite Hparse. reflexivity. }
  rewrite Hno. cbn [length Nat.add].
  rewrite result_bind, trace_bind, List.filter_app, length_app.
  unfold result_of at 1 3, world_of at 1 2, trace_of at 1.
  destruct (sleep interval _) as [[[]|e] w1]; cbn [fst snd]; [|discriminate].
  intros Hr. cbn [List.filter is_sleep length Nat.add]. f_equal.
  apply (IH d1 delays' w1 Hr).
Qed.

(** ** Cycles that raise in the loop over the slaves *)

Ltac run_step :=
  cbn [result_of world_of trace_of lift print emit ret fst snd app].

Lemma seek_vlc_to_time_raise (host : string) (port : Z) (password : string)
    (t delta : float) (e : exn) (w : World) :
  seek_target t 0 = Raise e ->
  seek_vlc_to_time host port password t delta w = (Raise e, w, []).
Proof. intros Ht. unfold seek_vlc_to_time, bind, lift. rewrite Ht. reflexivity. Qed.

Lemma sync_slave_raise (parsed : list (string * Z)) (delays : list float)
    (thr mt : float) (fr : bool) (i : nat) (e : exn) (w : World) :
  (i < length parsed)%nat -> (i < length delays)%nat ->
  seek_target mt 0 = Raise e ->
  requests (trace_of (sync_slave parsed delays thr mt fr i tt w)) = [] /\
  result_of (sync_slave parsed delays thr mt fr i tt w)
    = if skip_seek fr (nth i delays 0%float) thr then Ok tt else Raise e.
Proof.
  intros Hp Hd Ht. unfold sync_slave.
  rewrite result_bind, trace_bind, (py_index_nth parsed i (EmptyString, 0) Hp).
  run_step. destruct (nth i parsed (EmptyString, 0)) as [host port].
  rewrite result_bind, trace_bind, (py_index_nth delays i 0%float Hd).
  run_step. destruct (skip_seek fr (nth i delays 0%float) thr); [split; reflexivity|].
  rewrite result_bind, trace_bind.
  rewrite (seek_vlc_to_time_raise host port VLC_PASSWORD mt _ e w Ht).
  split; reflexivity.
Qed.

Lemma sync_slaves_raise (parsed : list (string * Z)) (delays : list float)
    (thr mt : float) (fr : bool) (e : exn) (l : list nat) :
  seek_target mt 0 = Raise e ->
  Forall (fun i => (i < length parsed)%nat /\ (i < length delays)%nat) l ->
  forall w,
    requests (trace_of (foldM (sync_slave parsed delays thr mt fr) l tt w)) = [] /\
    result_of (foldM (sync_slave parsed delays thr mt fr) l tt w)
      = match List.filter (fun i => negb (skip_seek fr (nth i delays 0%float) thr)) l with
        | [] => Ok tt
        | _ => Raise e
        end.
Proof.
  intros Ht Hl. induction Hl as [|i l [Hp Hd] _ IH]; intros w; cbn [foldM].
  - split; reflexivity.
  - destruct (sync_slave_raise parsed delays thr mt fr i e w Hp Hd Ht) as [Hq Hr].
    rewrite result_bind, trace_bind, requests_app, Hr, Hq. cbn [List.filter].
    destruct (skip_seek fr (nth i delays 0%float) thr); cbn [negb].
    + apply IH.
    + split; reflexivity.
Qed.

(** X9: a master time for which [int] raises (NaN or plus infinity)
    aborts the cycle at the first slave that is not skipped: the
    exception leaves [sync_once] after the master's status request
    alone, with no seek and no re-measure. When every slave is skipped
    the cycle goes on to the re-measure. *)
Theorem sync_once_master_time_not_real (host_strs : list string)
    (delays : list float) (thr : float) (w : World)
    (master : string * Z) (slaves : list (string * Z))
    (status : pyval) (mt : float) (e : exn) :
  omap parse_host_port host_strs = Ok (master :: slaves) ->
  result_of (get_vlc_status (fst master) (snd master) VLC_PASSWORD w) = Ok status ->
  extract_precise_time status = Ok (Some mt) ->
  seek_target mt 0 = Raise e ->
  (length (master :: slaves) <= length delays)%nat ->
  (corrected_slaves delays thr (length (master :: slaves)) <> [] ->
   result_of (sync_once host_strs delays thr w) = Raise e /\
   requests (trace_of (sync_once host_strs delays thr w)) = [status_request master]) /\
  (corrected_slaves delays thr (length (master :: slaves)) = [] ->
   requests (trace_of (sync_once host_strs delays thr w))
     = status_request master :: map status_request (master :: slaves)).
Proof.
  intros Hparse Hst Hmt Ht Hlen.
  assert (Hall : Forall (fun i => (i < length (master :: slaves))%nat /\
                                  (i < length delays)%nat)
                        (slave_indices (length (master :: slaves)))).
  { apply List.Forall_forall. intros i Hi. apply slave_indices_lt in Hi. lia. }
  destruct master as [mh mp]. cbn [fst snd] in *.
  destruct (get_vlc_status_run mh mp VLC_PASSWORD w) as (_ & _ & Hreq).
  destruct (sync_slaves_raise ((mh, mp) :: slaves) delays thr mt (first_run delays) e
              _ Ht Hall (world_of (get_vlc_status mh mp VLC_PASSWORD w))) as [Hq Hr].
  fold (corrected_slaves delays thr (length ((mh, mp) :: slaves))) in Hr.
  assert (Htr : requests (trace_of (sync_once host_strs delays thr w))
                = status_request (mh, mp)
                  :: match corrected_slaves delays thr (length ((mh, mp) :: slaves)) with
                     | [] => map status_request ((mh, mp) :: slaves)
                     | _ => []
                     end).
  { unfold sync_once.
    rewrite trace_bind, Hparse. run_step.
    rewrite trace_bind. run_step. cbn [py_index lookup list_lookup].
    rewrite trace_bind, requests_app, Hreq, Hst.
    rewrite trace_bind, Hmt. run_step.
    rewrite trace_bind. run_step. rewrite requests_print.
    rewrite trace_bind, requests_app, Hq, Hr. cbn [app]. unfold status_request at 1.
    cbn [fst snd]. f_equal.
    destruct (corrected_slaves delays thr (length ((mh, mp) :: slaves))); [|reflexivity].
    rewrite trace_bind, requests_app, (detect_delays_requests _ _ _ Hparse).
    destruct (result_of (detect_delays host_strs _)) as [[[nd rtt]|]|]; apply app_nil_r. }
  split.
  - intros Hne. split.
    + unfold sync_once.
      rewrite result_bind, Hparse. run_step.
      rewrite result_bind. run_step. cbn [py_index lookup list_lookup].
      rewrite result_bind, Hst. rewrite result_bind, Hmt. run_step.
      rewrite result_bind. run_step. rewrite result_bind, Hr.
      destruct (corrected_slaves delays thr (length ((mh, mp) :: slaves)));
        [contradiction | reflexivity].
    + rewrite Htr.
      destruct (corrected_slaves delays thr (length ((mh, mp) :: slaves)));
        [contradiction | reflexivity].
  - intros Hnil. rewrite Htr, Hnil. reflexivity.
Qed.

Lemma sync_slave_index_error (parsed : list (string * Z)) (delays : list float)
    (thr mt : float) (fr : bool) (i : nat) (w : World) :
  (i < length parsed)%nat -> (length delays <= i)%nat ->
  sync_slave parsed delays thr mt fr i tt w = (Raise IndexError, w, []).
Proof.
  intros Hi Hd. unfold sync_slave, bind, lift.
  rewrite (py_index_nth parsed i (EmptyString, 0) Hi).
  destruct (nth i parsed (EmptyString, 0)) as [host port].
  unfold py_index. rewrite (lookup_ge_None_2 delays i Hd). reflexivity.
Qed.

Lemma sync_slaves_short (parsed : list (string * Z)) (delays : list float)
    (thr mt : float) (fr : bool) (target : Z) (l1 l2 : list nat) (i : nat) :
  seek_target mt 0 = Ok target ->
  Forall (fun j => (j < length parsed)%nat /\ (j < length delays)%nat) l1 ->
  (i < length parsed)%nat -> (length delays <= i)%nat ->
  forall w,
    result_of (foldM (sync_slave parsed delays thr mt fr) (l1 ++ i :: l2) tt w)
      = Raise IndexError /\
    requests (trace_of (foldM (sync_slave parsed delays thr mt fr) (l1 ++ i :: l2) tt w))
      = map (fun j => seek_request target (endpoint_at parsed j))
            (List.filter (fun j => negb (skip_seek fr (nth j delays 0%float) thr)) l1).
Proof.
  intros Ht Hl Hi Hd. induction Hl as [|j l1 [Hjp Hjd] _ IH]; intros w.
  - cbn [app foldM]. rewrite result_bind, trace_bind.
    rewrite (sync_slave_index_error parsed delays thr mt fr i w Hi Hd).
    split; reflexivity.
  - cbn [app foldM].
    destruct (sync_slave_run parsed delays thr mt fr j target w Hjp Hjd Ht) as [Hr Hq].
    rewrite result_bind, trace_bind, requests_app, Hr, Hq.
    destruct (IH (world_of (sync_slave parsed delays thr mt fr j tt w))) as [Hr' Hq'].
    rewrite Hr', Hq'. cbn [List.filter].
    destruct (skip_seek fr (nth j delays 0%float) thr); split; reflexivity.
Qed.

(** X10: a DriftState with fewer entries than the loop over the slaves
    reads makes the cycle raise [IndexError]: the slaves that do have
    an entry are handled first, and the exception leaves [sync_once]
    before the re-measure. *)
Theorem sync_once_short_delays (host_strs : list string) (delays : list float)
    (thr : float) (w : World) (master : string * Z) (slaves : list (string * Z))
    (status : pyval) (mt : float) (target : Z) :
  omap parse_host_port host_strs = Ok (master :: slaves) ->
  result_of (get_vlc_status (fst master) (snd master) VLC_PASSWORD w) = Ok status ->
  extract_precise_time status = Ok (Some mt) ->
  seek_target mt 0 = Ok target ->
  (Nat.max 1 (length delays) < length (master :: slaves))%nat ->
  result_of (sync_once host_strs delays thr w) = Raise IndexError /\
  requests (trace_of (sync_once host_strs delays thr w))
    = status_request master
      :: map (fun i => seek_request target (endpoint_at (master :: slaves) i))
             (corrected_slaves delays thr (Nat.max 1 (length delays))).
Proof.
  intros Hparse Hst Hmt Ht Hlen.
  set (k := Nat.max 1 (length delays)) in *.
  set (n := length (master :: slaves)) in *.
  assert (Hsplit : slave_indices n = slave_indices k ++ k :: seq (S k) (n - k - 1)).
  { unfold slave_indices. replace (n - 1)%nat with ((k - 1) + S (n - k - 1))%nat by lia.
    rewrite seq_app. f_equal. replace (1 + (k - 1))%nat with k by lia. reflexivity. }
  assert (Hl1 : Forall (fun j => (j < n)%nat /\ (j < length delays)%nat) (slave_indices k)).
  { apply List.Forall_forall. intros j Hj. apply slave_indices_lt in Hj. lia. }
  destruct master as [mh mp]. cbn [fst snd] in *.
  destruct (get_vlc_status_run mh mp VLC_PASSWORD w) as (_ & _ & Hreq).
  destruct (sync_slaves_short ((mh, mp) :: slaves) delays thr mt (first_run delays)
              target (slave_indices k) (seq (S k) (n - k - 1)) k Ht Hl1
              ltac:(lia) ltac:(lia)
              (world_of (get_vlc_status mh mp VLC_PASSWORD w))) as [Hr Hq].
  rewrite <- Hsplit in Hr, Hq.
  unfold sync_once. split.
  - rewrite result_bind, Hparse. run_step.
    rewrite result_bind. run_step. cbn [py_index lookup list_lookup].
    rewrite result_bind, Hst. rewrite result_bind, Hmt. run_step.
    rewrite result_bind. run_step. rewrite result_bind. fold n. rewrite Hr. reflexivity.
  - rewrite trace_bind, Hparse. run_step.
    rewrite trace_bind. run_step. cbn [py_index lookup list_lookup].
    rewrite trace_bind, requests_app, Hreq, Hst.
    rewrite trace_bind, Hmt. run_step.
    rewrite trace_bind. run_step. rewrite requests_print.
    rewrite trace_bind, requests_app. fold n. rewrite Hq, Hr, app_nil_r. reflexivity.
Qed.

(** ** The re-measure *)


(** X12: when no slave has a readable time, the re-measure returns the
    all-zero state that [main] starts from, so the next cycle is a
    first run again and corrects every slave whatever the threshold. *)
Theorem detect_delays_no_playback_resets (host_strs : list string) (w : World)
    (delays rtt_ms : list float) (parsed : list (string * Z))
    (results : list (pyval * float)) :
  result_of (detect_delays host_strs w) = Ok (Some (delays, rtt_ms)) ->
  omap parse_host_port host_strs = Ok parsed ->
  result_of (poll_all parsed w) = Ok results ->
  (forall i status,
     (1 <= i)%nat -> map fst results !! i = Some status ->
     extract_precise_time status = Ok None) ->
  delays = initial_delays host_strs /\
  first_run delays = true /\
  forall thr n, corrected_slaves delays thr n = slave_indices n.
Proof.
  intros Hres Hparse Hpoll Hnone.
  destruct (detect_delays_result _ _ _ _ Hres)
    as (parsed' & results' & status0 & mt & Hparse' & Hpoll' & _ & _ & _ & Hl & Hz & Hall).
  rewrite Hparse in Hparse'. injection Hparse' as Hp'. subst parsed'.
  rewrite Hpoll in Hpoll'. injection Hpoll' as Hr'. subst results'.
  assert (Heq : delays = initial_delays host_strs).
  { unfold initial_delays. apply list_eq. intros i.
    destruct (Nat.lt_ge_cases i (length host_strs)) as [Hi | Hi].
    - rewrite (lookup_repeat _ _ _ Hi). destruct i as [|i]; [exact Hz|].
      destruct (Hall (S i) ltac:(lia)) as (status & Hst & Hc).
      destruct Hc as [(t & Ht & _) | [_ Hd]]; [|exact Hd].
      rewrite (Hnone (S i) status ltac:(lia) Hst) in Ht. discriminate.
    - rewrite (lookup_ge_None_2 delays i) by lia.
      symmetry. apply lookup_ge_None_2. rewrite repeat_length. exact Hi. }
  split; [exact Heq|].
  assert (Hf : first_run delays = true) by (rewrite Heq; apply first_run_zeros).
  split; [exact Hf|]. intros thr n. apply first_run_corrects_all. exact Hf.
Qed.

(** X13: with the master as the only host a cycle never seeks; what it
    returns is the state it was given or the one-entry state [[0.0]]. *)
Theorem sync_once_master_only (h : string) (master : string * Z)
    (delays delays' : list float) (thr : float) (w : World) :
  parse_host_port h = Ok master ->
  seeks (trace_of (sync_once [h] delays thr w)) = [] /\
  (result_of (sync_once [h] delays thr w) = Ok delays' ->
   delays' = delays \/ delays' = [0%float]).
Proof.
  intros Hh.
  assert (Hparse : omap parse_host_port [h] = Ok [master]).
  { cbn [omap]. rewrite Hh. reflexivity. }
  split.
  - pose proof (sync_once_emits [h] delays thr [master] Hparse w) as Hall.
    unfold seeks. induction Hall as [|ev tr Hev _ IH]; [reflexivity|].
    destruct ev; cbn [List.filter is_seek]; try exact IH.
    destruct Hev as [[] _].
  - intros Hres.
    destruct (sync_once_result _ _ _ _ _ Hres) as [-> | (w' & rtt & Hd)];
      [left; reflexivity | right].
    destruct (detect_delays_result _ _ _ _ Hd)
      as (_ & _ & _ & _ & _ & _ & _ & _ & _ & Hl & Hz & _).
    destruct delays' as [|d [|d' ds]]; try discriminate.
    cbn in Hz. injection Hz as ->. reflexivity.
Qed.

(** ** When the re-measure raises *)

Lemma extract_object_total (v : pyval) :
  is_object_or_none v = true -> exists r, extract_precise_time v = Ok r.
Proof.
  destruct v; try discriminate; intros _; cbn [extract_precise_time]; [eauto|].
  destruct (is_not_none _ && py_truthy _); [|eauto].
  destruct (position_times_length _ _); eauto.
Qed.

Lemma extract_not_object (v : pyval) :
  is_object_or_none v = false -> extract_precise_time v = Raise AttributeError.
Proof. destruct v; try discriminate; reflexivity. Qed.

Lemma detect_slave_total (parsed : list (string * Z)) (statuses : list pyval)
    (rtt_ms : list float) (mt : float) (i : nat) (status : pyval)
    (ds : list float) (w : World) :
  (i < length parsed)%nat -> (i < length rtt_ms)%nat ->
  statuses !! i = Some status -> is_object_or_none status = true ->
  exists ds', result_of (detect_slave parsed statuses rtt_ms mt i ds w) = Ok ds'.
Proof.
  intros Hp Hr Hs Ho. unfold detect_slave.
  rewrite result_bind, (py_index_nth parsed i (EmptyString, 0) Hp). run_step.
  destruct (nth i parsed (EmptyString, 0)) as [host port].
  rewrite result_bind. unfold py_index at 1. rewrite Hs. run_step.
  destruct (extract_object_total status Ho) as [r Hx].
  rewrite result_bind, Hx. run_step.
  rewrite result_bind, (py_index_nth rtt_ms i 0%float Hr). run_step.
  rewrite result_bind. run_step.
  destruct r as [t|]; rewrite result_bind; run_step; eauto.
Qed.

Lemma detect_slave_not_object (parsed : list (string * Z)) (statuses : list pyval)
    (rtt_ms : list float) (mt : float) (i : nat) (status : pyval)
    (ds : list float) (w : World) :
  (i < length parsed)%nat ->
  statuses !! i = Some status -> is_object_or_none status = false ->
  result_of (detect_slave parsed statuses rtt_ms mt i ds w) = Raise AttributeError.
Proof.
  intros Hp Hs Ho. unfold detect_slave.
  rewrite result_bind, (py_index_nth parsed i (EmptyString, 0) Hp). run_step.
  destruct (nth i parsed (EmptyString, 0)) as [host port].
  rewrite result_bind. unfold py_index at 1. rewrite Hs. run_step.
  rewrite result_bind, (extract_not_object status Ho). reflexivity.
Qed.

Lemma detect_slaves_outcome (parsed : list (string * Z)) (statuses : list pyval)
    (rtt_ms : list float) (mt : float) (l : list nat) :
  Forall (fun i => (i < length parsed)%nat /\ (i < length rtt_ms)%nat /\
                   (i < length statuses)%nat) l ->
  forall ds w,
    ((forall i status, In i l -> statuses !! i = Some status ->
                       is_object_or_none status = true) ->
     exists ds', result_of (foldM (detect_slave parsed statuses rtt_ms mt) l ds w) = Ok ds') /\
    ((exists i status, In i l /\ statuses !! i = Some status /\
                       is_object_or_none status = false) ->
     result_of (foldM (detect_slave parsed statuses rtt_ms mt) l ds w)
       = Raise AttributeError).
Proof.
  induction 1 as [|i l (Hp & Hr & Hs) _ IH]; intros ds w; cbn [foldM].
  - split; [intros _; eexists; reflexivity | intros (i & s & [] & _)].
  - destruct (lookup_lt_is_Some_2 statuses i Hs) as [status Hst].
    rewrite result_bind.
    destruct (is_object_or_none status) eqn:Ho.
    + destruct (detect_slave_total parsed statuses rtt_ms mt i status ds w Hp Hr Hst Ho)
        as [ds1 H1].
      rewrite H1. split.
      * intros Hall. apply IH. intros j s Hj. apply Hall. right. exact Hj.
      * intros (j & s & [<- | Hj] & Hjs & Hbad).
        -- congruence.
        -- apply IH. eauto.
    + rewrite (detect_slave_not_object parsed statuses rtt_ms mt i status ds w Hp Hst Ho).
      split; [|reflexivity].
      intros Hall. rewrite (Hall i status (or_introl eq_refl) Hst) in Ho. discriminate.
Qed.

Lemma detect_delays_result_eq (host_strs : list string) (parsed : list (string * Z))
    (results : list (pyval * float)) (w : World) :
  host_strs <> [] ->
  omap parse_host_port host_strs = Ok parsed ->
  result_of (poll_all parsed w) = Ok results ->
  result_of (detect_delays host_strs w) =
  obind (py_index (map fst results) 0) (fun status0 =>
  obind (extract_precise_time status0) (fun master_time =>
    match master_time with
    | None => Ok None
    | Some mt =>
        obind (py_index (map snd results) 0) (fun _ =>
        obind (result_of (foldM (detect_slave parsed (map fst results)
                                   (map snd results) mt)
                                (slave_indices (length parsed))
                                (repeat 0%float (length parsed))
                                (world_of (poll_all parsed w))))
              (fun ds => Ok (Some (ds, map snd results))))
    end)).
Proof.
  intros Hne Hparse Hpoll. unfold detect_delays.
  destruct host_strs as [|h0 hs]; [contradiction|].
  rewrite result_bind, Hparse. run_step.
  rewrite result_bind. run_step.
  rewrite result_bind, Hpoll.
  rewrite result_bind. run_step.
  destruct (py_index (map fst results) 0) as [status0|e]; [|reflexivity].
  cbn [obind]. rewrite result_bind. run_step.
  destruct (extract_precise_time status0) as [[mt|]|e]; cbn [obind];
    [|rewrite result_bind; reflexivity|reflexivity].
  rewrite result_bind. run_step.
  destruct (py_index (map snd results) 0) as [rtt0|e]; [|reflexivity].
  cbn [obind]. rewrite result_bind. run_step. rewrite result_bind.
  match goal with |- context [result_of (foldM ?b ?l ?s ?w0)] =>
    destruct (result_of (foldM b l s w0)) as [ds|e] end; reflexivity.
Qed.

(** X14: how [detect_delays] ends, from what the players answered. If
    the master's answer is not a JSON object it raises
    [AttributeError]; if the master has no time it returns [None]
    without looking at the slaves; if the master has a time it returns
    drifts when every answer is an object or missing, and raises
    [AttributeError] when some slave's answer is not. *)
Theorem detect_delays_outcome (host_strs : list string) (w : World)
    (parsed : list (string * Z)) (results : list (pyval * float)) (status0 : pyval) :
  omap parse_host_port host_strs = Ok parsed ->
  result_of (poll_all parsed w) = Ok results ->
  map fst results !! 0%nat = Some status0 ->
  (is_object_or_none status0 = false ->
   result_of (detect_delays host_strs w) = Raise AttributeError) /\
  (extract_precise_time status0 = Ok None ->
   result_of (detect_delays host_strs w) = Ok None) /\
  (forall mt, extract_precise_time status0 = Ok (Some mt) ->
     ((forall s, In s (map fst results) -> is_object_or_none s = true) ->
      exists delays,
        result_of (detect_delays host_strs w) = Ok (Some (delays, map snd results))) /\
     ((exists s, In s (map fst results) /\ is_object_or_none s = false) ->
      result_of (detect_delays host_strs w) = Raise AttributeError)).
Proof.
  intros Hparse Hpoll Hs0.
  destruct (poll_all_run parsed w) as (results' & Hpoll' & Hlen & _).
  rewrite Hpoll in Hpoll'. injection Hpoll' as Hr'. subst results'.
  assert (Hpos : (0 < length results)%nat).
  { apply lookup_lt_Some in Hs0. rewrite length_map in Hs0. exact Hs0. }
  assert (Hne : host_strs <> []).
  { intros ->. cbn in Hparse. injection Hparse as <-. cbn in Hlen. lia. }
  rewrite (detect_delays_result_eq host_strs parsed results w Hne Hparse Hpoll).
  assert (Hidx : py_index (map fst results) 0 = Ok status0)
    by (unfold py_index; rewrite Hs0; reflexivity).
  rewrite Hidx. cbn [obind].
  split; [|split].
  - intros Hbad. rewrite (extract_not_object status0 Hbad). reflexivity.
  - intros Hn. rewrite Hn. reflexivity.
  - intros mt Hmt. rewrite Hmt. cbn [obind].
    rewrite (py_index_nth (map snd results) 0 0%float)
      by (rewrite length_map; exact Hpos).
    cbn [obind].
    assert (Hrange : Forall (fun i => (i < length parsed)%nat /\
                                      (i < length (map snd results))%nat /\
                                      (i < length (map fst results))%nat)
                            (slave_indices (length parsed))).
    { apply List.Forall_forall. intros i Hi. apply slave_indices_lt in Hi.
      rewrite !length_map. lia. }
    destruct (detect_slaves_outcome parsed (map fst results) (map snd results) mt _
                Hrange (repeat 0%float (length parsed)) (world_of (poll_all parsed w)))
      as [Hgood Hbad].
    split.
    + intros Hall. destruct Hgood as [ds Hds].
      * intros i s _ Hs. apply Hall, list_elem_of_In, (list_elem_of_lookup_2 _ i). exact Hs.
      * rewrite Hds. eauto.
    + intros (s & Hin & Hs). rewrite Hbad; [reflexivity|].
      apply list_elem_of_In, list_elem_of_lookup_1 in Hin. destruct Hin as [i Hi].
      exists i, s. split; [|split; assumption].
      assert (Hi0 : i <> 0%nat).
      { intros ->. rewrite Hs0 in Hi. injection Hi as ->.
        rewrite (extract_not_object s Hs) in Hmt. discriminate. }
      apply lookup_lt_Some in Hi. rewrite length_map in Hi.
      unfold slave_indices. apply in_seq. lia.
Qed.

(** ** Cycles that cannot raise *)

Section Returns.

Variable good : World -> Prop.

Lemma returns_ret {A} (Q : A -> Prop) (a : A) : Q a -> returns good Q (ret a).
Proof. intros Hq w Hw. exists a. repeat split; assumption. Qed.

Lemma returns_lift {A} (Q : A -> Prop) (a : A) : Q a -> returns good Q (lift (Ok a)).
Proof. intros Hq w Hw. exists a. repeat split; assumption. Qed.

Lemma returns_print (m : msg) : returns good (fun _ => True) (print m).
Proof. intros w Hw. exists tt. repeat split; assumption. Qed.

Lemma returns_bind {A B} (Q : A -> Prop) (R : B -> Prop) (c : M A) (k : A -> M B) :
  returns good Q c -> (forall a, Q a -> returns good R (k a)) ->
  returns good R (bind c k).
Proof.
  intros Hc Hk w Hw. destruct (Hc w Hw) as (a & Ha & Hq & Hg).
  destruct (Hk a Hq _ Hg) as (b & Hb & Hr & Hg').
  exists b. rewrite result_bind, world_bind, Ha. repeat split; assumption.
Qed.

Lemma returns_foldM {A S} (I : S -> Prop) (body : A -> S -> M S) (l : list A) :
  (forall x s, In x l -> I s -> returns good I (body x s)) ->
  forall s, I s -> returns good I (foldM body l s).
Proof.
  induction l as [|x l IH]; intros Hb s Hs; cbn [foldM].
  - apply returns_ret. exact Hs.
  - apply (returns_bind I); [apply Hb; [left; reflexivity | exact Hs]|].
    intros s1 Hs1. apply IH; [|exact Hs1].
    intros y s2 Hy. apply Hb. right. exact Hy.
Qed.

Lemma returns_mapM {A B} (Q : B -> Prop) (f : A -> M B) (l : list A) :
  (forall x, In x l -> returns good Q (f x)) ->
  returns good (fun ys => length ys = length l /\ forall y, In y ys -> Q y) (mapM f l).
Proof.
  induction l as [|x l IH]; intros Hf; cbn [mapM].
  - apply returns_ret. split; [reflexivity | intros y []].
  - apply (returns_bind Q); [apply Hf; left; reflexivity|]. intros y Hy.
    apply (returns_bind (fun ys => length ys = length l /\ forall z, In z ys -> Q z)).
    + apply IH. intros z Hz. apply Hf. right. exact Hz.
    + intros ys [Hlen Hys]. apply returns_ret. split; [cbn; rewrite Hlen; reflexivity|].
      intros z [<- | Hz]; [exact Hy | apply Hys; exact Hz].
Qed.

Hypothesis Hwb : well_behaved good.

Lemma real_time_None : real_time PNone.
Proof. split; [reflexivity | discriminate]. Qed.

Lemma returns_get_vlc_status (host : string) (port : Z) (password : string) :
  returns good real_time (get_vlc_status host port password).
Proof.
  intros w Hw. destruct (wb_status good Hwb host port password w Hw) as [Hg Hv].
  unfold get_vlc_status, result_of, world_of.
  destruct (http_status host port password w) as [[v|] w1]; cbn [fst snd] in *.
  - exists v. repeat split; [apply Hv; reflexivity.. | exact Hg].
  - exists PNone. split; [reflexivity|]. split; [apply real_time_None | exact Hg].
Qed.

Lemma returns_perf_counter :
  returns good (fun _ => True)
    (fun w => let '(t, w1) := perf_counter w in (Ok t, w1, [])).
Proof.
  intros w Hw. pose proof (wb_clock good Hwb w Hw) as Hg.
  unfold result_of, world_of. destruct (perf_counter w) as [t w1].
  exists t. repeat split. exact Hg.
Qed.

Lemma returns_timed_status_request (host : string) (port : Z) (password : string) :
  returns good (fun r => real_time (fst r)) (timed_status_request host port password).
Proof.
  unfold timed_status_request.
  apply (returns_bind (fun _ => True)); [apply returns_perf_counter | intros t0 _].
  apply (returns_bind real_time); [apply returns_get_vlc_status | intros status Hs].
  apply (returns_bind (fun _ => True)); [apply returns_perf_counter | intros t1 _].
  apply returns_ret. exact Hs.
Qed.

Lemma returns_poll_all (parsed : list (string * Z)) :
  returns good
    (fun rs => length rs = length parsed /\ forall r, In r rs -> real_time (fst r))
    (poll_all parsed).
Proof.
  unfold poll_all. apply returns_mapM. intros hp _. apply returns_timed_status_request.
Qed.

Lemma returns_seek_vlc_to_time (host : string) (port : Z) (password : string)
    (t delta : float) :
  is_real t = true ->
  returns good (fun _ => True) (seek_vlc_to_time host port password t delta).
Proof.
  intros Hr. destruct (seek_target_real t Hr) as (z & _ & _ & _ & Ht & _).
  unfold seek_vlc_to_time. rewrite Ht.
  apply (returns_bind (fun _ => True)); [apply returns_lift; exact I | intros target _].
  apply (returns_bind (fun _ => True)).
  - intros w Hw. pose proof (wb_seek good Hwb host port password target w Hw) as Hg.
    unfold result_of, world_of. destruct (http_seek host port password target w) as [b w1].
    exists b. repeat split. exact Hg.
  - intros [|] _; [apply returns_ret; exact I|].
    apply (returns_bind (fun _ => True)); [apply returns_print|].
    intros _ _. apply returns_ret. exact I.
Qed.

Lemma returns_sync_slave (parsed : list (string * Z)) (delays : list float)
    (thr mt : float) (fr : bool) (i : nat) :
  (i < length parsed)%nat -> (i < length delays)%nat -> is_real mt = true ->
  returns good (fun _ => True) (sync_slave parsed delays thr mt fr i tt).
Proof.
  intros Hp Hd Hr. unfold sync_slave.
  rewrite (py_index_nth parsed i (EmptyString, 0) Hp).
  apply (returns_bind (fun _ => True)); [apply returns_lift; exact I | intros [host port] _].
  rewrite (py_index_nth delays i 0%float Hd).
  apply (returns_bind (fun _ => True)); [apply returns_lift; exact I | intros drift _].
  destruct (skip_seek fr drift thr); [apply returns_print|].
  apply (returns_bind (fun _ => True)); [apply returns_seek_vlc_to_time; exact Hr|].
  intros [[|] target] _; apply returns_print.
Qed.

Lemma returns_detect_slave (parsed : list (string * Z)) (statuses : list pyval)
    (rtt_ms : list float) (mt : float) (i : nat) (ds : list float) :
  (i < length parsed)%nat -> (i < length rtt_ms)%nat -> (i < length statuses)%nat ->
  (forall s, In s statuses -> real_time s) ->
  returns good (fun ds' => length ds' = length ds)
    (detect_slave parsed statuses rtt_ms mt i ds).
Proof.
  intros Hp Hr Hs Hall. unfold detect_slave.
  rewrite (py_index_nth parsed i (EmptyString, 0) Hp).
  apply (returns_bind (fun _ => True)); [apply returns_lift; exact I | intros [host port] _].
  rewrite (py_index_nth statuses i PNone Hs).
  destruct (extract_object_total (nth i statuses PNone)) as [r Hx].
  { apply Hall, nth_In. exact Hs. }
  apply (returns_bind (eq (nth i statuses PNone)));
    [apply returns_lift; reflexivity | intros status' <-].
  rewrite Hx, (py_index_nth rtt_ms i 0%float Hr).
  apply (returns_bind (fun _ => True)); [apply returns_lift; exact I | intros slave_time _].
  apply (returns_bind (fun _ => True)); [apply returns_lift; exact I | intros rtt _].
  apply (returns_bind (fun _ => True)); [apply returns_print | intros _ _].
  destruct slave_time as [t|];
    (apply (returns_bind (fun _ => True)); [apply returns_print | intros _ _]);
    apply returns_ret; [apply length_insert | reflexivity].
Qed.

Lemma returns_detect_delays (host_strs : list string) (parsed : list (string * Z)) :
  host_strs <> [] ->
  omap parse_host_port host_strs = Ok parsed ->
  returns good
    (fun r => match r with
              | Some (delays, _) => length delays = length host_strs
              | None => True
              end)
    (detect_delays host_strs).
Proof.
  intros Hne Hparse. pose proof (omap_length _ _ _ Hparse) as Hplen.
  assert (Hpos : (0 < length parsed)%nat).
  { rewrite Hplen. destruct host_strs; [contradiction | cbn; lia]. }
  unfold detect_delays. destruct host_strs as [|h0 hs]; [contradiction|].
  rewrite Hparse.
  apply (returns_bind (eq parsed)); [apply returns_lift; reflexivity | intros parsed' <-].
  apply (returns_bind (fun _ => True)); [apply returns_print | intros _ _].
  apply (returns_bind _ _ _ _ (returns_poll_all parsed)).
  intros results [Hlen Hreal].
  assert (Hstat : forall s, In s (map fst results) -> real_time s).
  { intros s Hs. apply in_map_iff in Hs. destruct Hs as (r & <- & Hr). apply Hreal, Hr. }
  rewrite (py_index_nth (map fst results) 0 PNone) by (rewrite length_map; lia).
  apply (returns_bind (eq (nth 0 (map fst results) PNone)));
    [apply returns_lift; reflexivity | intros status0 <-].
  destruct (extract_object_total (nth 0 (map fst results) PNone)) as [r Hx].
  { apply Hstat, nth_In. rewrite length_map. lia. }
  rewrite Hx.
  apply (returns_bind (eq r)); [apply returns_lift; reflexivity | intros r' <-].
  destruct r as [mt|].
  - rewrite (py_index_nth (map snd results) 0 0%float) by (rewrite length_map; lia).
    apply (returns_bind (fun _ => True)); [apply returns_lift; exact I | intros rtt0 _].
    apply (returns_bind (fun _ => True)); [apply returns_print | intros _ _].
    apply (returns_bind (fun ds => length ds = length parsed)).
    + apply returns_foldM; [|apply repeat_length].
      intros i ds Hi Hds. apply slave_indices_lt in Hi.
      assert (Hstep : returns good (fun ds' => length ds' = length ds)
                (detect_slave parsed (map fst results) (map snd results) mt i ds)).
      { apply returns_detect_slave; rewrite ?length_map; try lia. exact Hstat. }
      intros w Hw. destruct (Hstep w Hw) as (ds' & Hr & Hl & Hg).
      exists ds'. repeat split; [exact Hr | congruence | exact Hg].
    + intros ds Hds. apply returns_ret. congruence.
  - apply (returns_bind (fun _ => True)); [apply returns_print | intros _ _].
    apply returns_ret. exact I.
Qed.

Lemma returns_sync_once (host_strs : list string) (parsed : list (string * Z))
    (delays : list float) (thr : float) :
  host_strs <> [] ->
  omap parse_host_port host_strs = Ok parsed ->
  (length host_strs <= length delays)%nat ->
  returns good (fun delays' => delays' = delays \/ length delays' = length host_strs)
    (sync_once host_strs delays thr).
Proof.
  intros Hne Hparse Hlen. pose proof (omap_length _ _ _ Hparse) as Hplen.
  assert (Hpos : (0 < length parsed)%nat).
  { rewrite Hplen. destruct host_strs; [contradiction | cbn; lia]. }
  unfold sync_once. rewrite Hparse.
  apply (returns_bind (eq parsed)); [apply returns_lift; reflexivity | intros parsed' <-].
  rewrite (py_index_nth parsed 0 (EmptyString, 0) Hpos).
  apply (returns_bind (fun _ => True)); [apply returns_lift; exact I | intros [mh mp] _].
  apply (returns_bind _ _ _ _ (returns_get_vlc_status mh mp VLC_PASSWORD)).
  intros status [Hobj Hreal].
  destruct (extract_object_total status Hobj) as [r Hx]. rewrite Hx.
  apply (returns_bind (eq r)); [apply returns_lift; reflexivity | intros r' <-].
  destruct r as [mt|].
  - apply (returns_bind (fun _ => True)); [apply returns_print | intros _ _].
    apply (returns_bind (fun _ => True)).
    + apply returns_foldM; [|exact I].
      intros i [] Hi _. apply slave_indices_lt in Hi.
      apply returns_sync_slave; [lia | lia | apply Hreal; exact Hx].
    + intros _ _.
      apply (returns_bind _ _ _ _ (returns_detect_delays host_strs parsed Hne Hparse)).
      intros [[nd rtt]|] Hr; apply returns_ret; [right; exact Hr | left; reflexivity].
  - apply (returns_bind (fun _ => True)); [apply returns_print | intros _ _].
    apply returns_ret. left. reflexivity.
Qed.

End Returns.

(** X15: a cycle cannot raise when the players behave: if every answer
    is a JSON object or missing and every time it carries is a real
    number, the host list parses and is not empty, and the DriftState
    has an entry for every host, then [sync_once] returns a DriftState,
    whether or not the seeks succeed. *)
Theorem sync_once_never_raises (good : World -> Prop) (host_strs : list string)
    (parsed : list (string * Z)) (delays : list float) (thr : float) (w : World) :
  well_behaved good -> good w ->
  host_strs <> [] ->
  omap parse_host_port host_strs = Ok parsed ->
  (length host_strs <= length delays)%nat ->
  exists delays',
    result_of (sync_once host_strs delays thr w) = Ok delays' /\
    (delays' = delays \/ length delays' = length host_strs) /\
    good (world_of (sync_once host_strs delays thr w)).
Proof.
  intros Hwb Hw Hne Hparse Hlen.
  exact (returns_sync_once good Hwb host_strs parsed delays thr Hne Hparse Hlen w Hw).
Qed.

(** X16: [main] cannot raise under the same conditions when
    [time.sleep] accepts the interval: any number of cycles of the loop
    completes, and so does the single cycle run without an interval. *)
Theorem main_never_raises (good : World -> Prop) (host_strs : list string)
    (parsed : list (string * Z)) (thr : float) (interval : option float)
    (n : nat) (w : World) :
  well_behaved good -> good w ->
  host_strs <> [] ->
  omap parse_host_port host_strs = Ok parsed ->
  (forall s w', interval = Some s -> good w' ->
     fst (sleep s w') = Ok tt /\ good (snd (sleep s w'))) ->
  exists delays, result_of (main host_strs thr interval n w) = Ok delays.
Proof.
  intros Hwb Hw Hne Hparse Hsleep. unfold main.
  assert (Hinit : length (initial_delays host_strs) = length host_strs)
    by apply repeat_length.
  destruct interval as [s|].
  - revert w Hw Hinit. generalize (initial_delays host_strs) as delays.
    induction n as [|n IH]; intros delays w Hw Hlen; cbn [sync_loop].
    + eexists. reflexivity.
    + destruct (returns_sync_once good Hwb host_strs parsed delays thr Hne Hparse
                  ltac:(lia) w Hw) as (d1 & H1 & Hd1 & Hg1).
      rewrite result_bind, H1, result_bind.
      set (w1 := world_of (sync_once host_strs delays thr w)) in *.
      destruct (Hsleep s w1 eq_refl Hg1) as [Hs Hg2].
      unfold result_of at 1, world_of at 1. cbv beta.
      destruct (sleep s w1) as [r w2]. cbn [fst snd] in *. subst r.
      apply IH; [exact Hg2|]. destruct Hd1 as [-> | Hd1]; assumption.
  - assert (Hle : (length host_strs <= length (initial_delays host_strs))%nat) by lia.
    destruct (returns_sync_once good Hwb host_strs parsed _ thr Hne Hparse Hle w Hw)
      as (d1 & H1 & _).
    eauto.
Qed.

(** ** How a cycle ends *)

(** X17: a cycle that reads a real master time ends with the
    re-measure: after the master's status request and the seeks comes
    a run of [detect_delays], and the cycle returns its drifts, or the
    drifts it was given when the re-measure returns [None], or raises
    what the re-measure raises, the seeks having been sent already. *)
Theorem sync_once_ends_with_remeasure (host_strs : list string)
    (delays : list float) (thr : float) (w : World)
    (master : string * Z) (slaves : list (string * Z))
    (status : pyval) (mt : float) (target : Z) :
  omap parse_host_port host_strs = Ok (master :: slaves) ->
  result_of (get_vlc_status (fst master) (snd master) VLC_PASSWORD w) = Ok status ->
  extract_precise_time status = Ok (Some mt) ->
  seek_target mt 0 = Ok target ->
  (length (master :: slaves) <= length delays)%nat ->
  exists before w2,
    trace_of (sync_once host_strs delays thr w)
      = before ++ trace_of (detect_delays host_strs w2) /\
    requests before
      = status_request master
        :: map (fun i => seek_request target (endpoint_at (master :: slaves) i))
               (corrected_slaves delays thr (length (master :: slaves))) /\
    result_of (sync_once host_strs delays thr w)
      = match result_of (detect_delays host_strs w2) with
        | Ok (Some (new_delays, _)) => Ok new_delays
        | Ok None => Ok delays
        | Raise e => Raise e
        end.
Proof.
  intros Hparse Hst Hmt Ht Hlen.
  assert (Hall : Forall (fun i => (i < length (master :: slaves))%nat /\
                                  (i < length delays)%nat)
                        (slave_indices (length (master :: slaves)))).
  { apply List.Forall_forall. intros i Hi. apply slave_indices_lt in Hi. lia. }
  destruct master as [mh mp]. cbn [fst snd] in *.
  destruct (get_vlc_status_run mh mp VLC_PASSWORD w) as (_ & _ & Hreq).
  set (w1 := world_of (get_vlc_status mh mp VLC_PASSWORD w)).
  destruct (sync_slaves_run ((mh, mp) :: slaves) delays thr mt (first_run delays)
              target _ Ht Hall w1) as [Hr Hq].
  set (loop := foldM (sync_slave ((mh, mp) :: slaves) delays thr mt (first_run delays))
                     (slave_indices (length ((mh, mp) :: slaves))) tt) in *.
  exists (trace_of (get_vlc_status mh mp VLC_PASSWORD w)
          ++ EvPrint (MasterPlayback mt) :: trace_of (loop w1)),
         (world_of (loop w1)).
  split; [|split].
  - unfold sync_once.
    rewrite trace_bind, Hparse. run_step.
    rewrite trace_bind. run_step. cbn [py_index lookup list_lookup].
    rewrite trace_bind, Hst. rewrite trace_bind, Hmt. run_step.
    rewrite trace_bind. run_step. fold loop. fold w1.
    rewrite trace_bind, Hr. rewrite trace_bind.
    rewrite <- List.app_assoc. cbn [app]. f_equal. f_equal. f_equal.
    destruct (result_of (detect_delays host_strs (world_of (loop w1))))
      as [[[nd rtt]|]|]; apply app_nil_r.
  - rewrite requests_app, Hreq, requests_print, Hq. reflexivity.
  - unfold sync_once.
    rewrite result_bind, Hparse. run_step.
    rewrite result_bind. run_step. cbn [py_index lookup list_lookup].
    rewrite result_bind, Hst. rewrite result_bind, Hmt. run_step.
    rewrite result_bind. run_step. fold loop. fold w1.
    rewrite result_bind, Hr. rewrite result_bind.
    destruct (result_of (detect_delays host_strs (world_of (loop w1))))
      as [[[nd rtt]|]|]; reflexivity.
Qed.

(** X18: the first cycle of [main] is a first run: when it reads a real
    master time it sends a seek to every slave, whatever the threshold. *)
Theorem main_first_cycle_corrects_all (host_strs : list string) (thr : float)
    (n : nat) (w : World) (master : string * Z) (slaves : list (string * Z))
    (status : pyval) (mt : float) :
  omap parse_host_port host_strs = Ok (master :: slaves) ->
  result_of (get_vlc_status (fst master) (snd master) VLC_PASSWORD w) = Ok status ->
  extract_precise_time status = Ok (Some mt) ->
  is_real mt = true ->
  exists target,
    seek_target mt 0 = Ok target /\
    seeks (trace_of (main host_strs thr None n w)) = map (seek_request target) slaves /\
    forall interval, exists later,
      seeks (trace_of (main host_strs thr (Some interval) (S n) w))
        = map (seek_request target) slaves ++ later.
Proof.
  intros Hparse Hst Hmt Hreal.
  destruct (seek_target_real mt Hreal) as (z & _ & _ & _ & Ht & _).
  exists (Z.max z 0). split; [exact Ht|].
  assert (Hlen : (length (master :: slaves) <= length (initial_delays host_strs))%nat).
  { unfold initial_delays. rewrite repeat_length, (omap_length _ _ _ Hparse). lia. }
  assert (Hfirst : seeks (trace_of (sync_once host_strs (initial_delays host_strs) thr w))
                   = map (seek_request (Z.max z 0)) slaves).
  { rewrite (sync_once_seeks _ _ thr _ _ _ _ _ _ Hparse Hst Hmt Ht Hlen).
    rewrite first_run_corrects_all by apply first_run_zeros.
    apply (map_endpoint_at_slaves (seek_request (Z.max z 0))). }
  split; [exact Hfirst|].
  intros interval. unfold main. cbn [sync_loop]. rewrite trace_bind.
  unfold seeks at 1. rewrite List.filter_app. fold (seeks (trace_of
    (sync_once host_strs (initial_delays host_strs) thr w))).
  rewrite Hfirst. eexists. reflexivity.
Qed.

(** ** Fields of the status payload *)

Lemma extract_precise_time_ext (d1 d2 : gmap string pyval) :
  dict_get d1 "position" = dict_get d2 "position" ->
  dict_get d1 "length" = dict_get d2 "length" ->
  dict_get d1 "time" = dict_get d2 "time" ->
  extract_precise_time (PDict d1) = extract_precise_time (PDict d2).
Proof.
  intros Hp Hl Ht. cbn [extract_precise_time]. unfold time_field.
  rewrite Hp, Hl, Ht. reflexivity.
Qed.

(** X19: a field whose value is JSON [null] is read as a missing
    field: setting any key to [None] gives the same time as deleting
    it. *)
Theorem extract_precise_time_null_is_missing (d : gmap string pyval) (k : string) :
  extract_precise_time (PDict (<[k := PNone]> d))
  = extract_precise_time (PDict (delete k d)).
Proof.
  assert (Hget : forall k', dict_get (<[k := PNone]> d) k' = dict_get (delete k d) k').
  { intros k'. unfold dict_get. destruct (decide (k = k')) as [->|Hne].
    - rewrite lookup_insert_eq, lookup_delete_eq. reflexivity.
    - rewrite lookup_insert_ne, lookup_delete_ne by exact Hne. reflexivity. }
  apply extract_precise_time_ext; apply Hget.
Qed.

(** X20: the time depends on the fields [position], [length] and
    [time] alone: adding, changing or removing any other field of the
    payload leaves it as it is. *)
Theorem extract_precise_time_ignores_other_fields (d : gmap string pyval)
    (k : string) (v : pyval) :
  k <> "position" -> k <> "length" -> k <> "time" ->
  extract_precise_time (PDict (<[k := v]> d)) = extract_precise_time (PDict d) /\
  extract_precise_time (PDict (delete k d)) = extract_precise_time (PDict d).
Proof.
  intros Hp Hl Ht. split; apply extract_precise_time_ext; unfold dict_get;
    first [rewrite lookup_insert_ne by exact Hp
          |rewrite lookup_insert_ne by exact Hl
          |rewrite lookup_insert_ne by exact Ht
          |rewrite lookup_delete_ne by exact Hp
          |rewrite lookup_delete_ne by exact Hl
          |rewrite lookup_delete_ne by exact Ht]; reflexivity.
Qed.

End Further.

(** * Further concrete runs *)

Example parse_host_port_forms :
  parse_host_port "b:9000" = Ok ("b", 9000) /\
  parse_host_port "a" = Ok ("a", DEFAULT_PORT) /\
  parse_host_port ":9000" = Ok (EmptyString, 9000) /\
  parse_host_port "fe80::1" = Raise ValueError.
Proof. repeat split; reflexivity. Qed.

(** A host with a port that is not a number: nothing is sent. *)
Lemma no_request_without_hosts_witness :
  In "s:x" ["m"; "s:x"] /\
  parse_host_port "s:x" = Raise ValueError /\
  sync_once ["m"; "s:x"] [0; 0]%float 1 two_players = (Raise ValueError, two_players, []) /\
  detect_delays ["m"; "s:x"] two_players = (Raise ValueError, two_players, []).
Proof.
  assert (Hin : In "s:x" ["m"; "s:x"]) by (right; left; reflexivity).
  assert (Hp : parse_host_port "s:x" = Raise ValueError) by reflexivity.
  split; [exact Hin|]. split; [exact Hp|].
  exact (proj1 (no_request_without_hosts ["m"; "s:x"] [0; 0]%float 1 two_players)
           (ex_intro _ "s:x" (ex_intro _ ValueError (conj Hin Hp)))).
Defined.

Lemma seek_vlc_to_time_not_real_witness :
  Prim2SF nan = S754_nan /\
  seek_vlc_to_time "s" 8080 VLC_PASSWORD nan 0 two_players
    = (Raise ValueError, two_players, []).
Proof.
  split; [reflexivity|].
  exact (proj1 (seek_vlc_to_time_not_real "s" 8080 VLC_PASSWORD nan 0 two_players)
           eq_refl).
Defined.

Lemma extract_precise_time_nan_length_witness :
  let d : gmap string pyval :=
    list_to_map [("position", PFloat 0.5); ("length", PFloat nan); ("time", PInt 42)] in
  is_not_none (dict_get d "position") = true /\
  py_float (dict_get d "position") = Ok 0.5%float /\
  dict_get d "length" = PFloat nan /\
  Prim2SF nan = S754_nan /\
  extract_precise_time (PDict d) = Ok (Some (0.5 * nan)%float) /\
  Prim2SF (0.5 * nan)%float = S754_nan /\
  seek_target (0.5 * nan)%float 0 = Raise ValueError.
Proof.
  cbn zeta.
  set (d := list_to_map
              [("position", PFloat 0.5); ("length", PFloat nan); ("time", PInt 42)]
            : gmap string pyval).
  assert (H1 : is_not_none (dict_get d "position") = true) by (vm_compute; reflexivity).
  assert (H2 : py_float (dict_get d "position") = Ok 0.5%float) by (vm_compute; reflexivity).
  assert (H3 : dict_get d "length" = PFloat nan) by (vm_compute; reflexivity).
  assert (H4 : Prim2SF nan = S754_nan) by reflexivity.
  repeat (split; [assumption|]).
  exact (extract_precise_time_nan_length d 0.5%float nan H1 H2 H3 H4).
Defined.

Lemma sync_once_contacts_only_listed_witness :
  omap parse_host_port hosts = Ok endpoints /\
  In (EvSeek "s" 8080 25) (trace_of (sync_once hosts [0; 0]%float 1 two_players)) /\
  In ("s", 8080) (tl endpoints).
Proof.
  assert (Hp : omap parse_host_port hosts = Ok endpoints) by reflexivity.
  assert (Hin : In (EvSeek "s" 8080 25)
                  (trace_of (sync_once hosts [0; 0]%float 1 two_players))).
  { vm_compute. right. right. left. reflexivity. }
  split; [exact Hp|]. split; [exact Hin|].
  exact (proj2 (sync_once_contacts_only_listed hosts [0; 0]%float 1 two_players
                  endpoints "s" 8080 Hp) 25 Hin).
Defined.

Lemma sync_once_seek_targets_nonneg_witness :
  In (EvSeek "s" 8080 25) (trace_of (sync_once hosts [0; 0]%float 1 two_players)) /\
  0 <= 25.
Proof.
  assert (Hin : In (EvSeek "s" 8080 25)
                  (trace_of (sync_once hosts [0; 0]%float 1 two_players))).
  { vm_compute. right. right. left. reflexivity. }
  split; [exact Hin|].
  exact (sync_once_seek_targets_nonneg hosts [0; 0]%float 1 two_players "s" 8080 25 Hin).
Defined.

Lemma sync_loop_sleeps_witness :
  result_of (sync_loop 2 hosts [0; 0]%float 1 5 two_players) = Ok [0; 5]%float /\
  length (List.filter is_sleep
            (trace_of (sync_loop 2 hosts [0; 0]%float 1 5 two_players))) = 2%nat.
Proof.
  assert (Hr : result_of (sync_loop 2 hosts [0; 0]%float 1 5 two_players)
               = Ok [0; 5]%float) by (vm_compute; reflexivity).
  split; [exact Hr|].
  exact (sync_loop_sleeps 2 hosts 1 5 [0; 0]%float [0; 5]%float two_players Hr).
Defined.

(** The master's length is NaN: the cycle dies on the first slave. *)
Lemma sync_once_master_time_not_real_witness :
  omap parse_host_port hosts = Ok endpoints /\
  result_of (get_vlc_status "m" 8080 VLC_PASSWORD nan_master) = Ok nan_payload /\
  extract_precise_time nan_payload = Ok (Some (0.5 * nan)%float) /\
  seek_target (0.5 * nan)%float 0 = Raise ValueError /\
  (length endpoints <= length [0; 0]%float)%nat /\
  corrected_slaves [0; 0]%float 1 (length endpoints) <> [] /\
  result_of (sync_once hosts [0; 0]%float 1 nan_master) = Raise ValueError /\
  requests (trace_of (sync_once hosts [0; 0]%float 1 nan_master)) = [EvStatus "m" 8080].
Proof.
  assert (Hp : omap parse_host_port hosts = Ok (("m", 8080) :: [("s", 8080)]))
    by reflexivity.
  assert (Hs : result_of (get_vlc_status (fst ("m", 8080)) (snd ("m", 8080))
                            VLC_PASSWORD nan_master) = Ok nan_payload) by reflexivity.
  assert (He : extract_precise_time nan_payload = Ok (Some (0.5 * nan)%float))
    by (vm_compute; reflexivity).
  assert (Ht : seek_target (0.5 * nan)%float 0 = Raise ValueError) by reflexivity.
  assert (Hl : (length endpoints <= length [0; 0]%float)%nat) by (cbn; lia).
  assert (Hc : corrected_slaves [0; 0]%float 1 (length endpoints) <> [])
    by (vm_compute; discriminate).
  repeat (split; [assumption|]).
  exact (proj1 (sync_once_master_time_not_real hosts [0; 0]%float 1 nan_master
                  ("m", 8080) [("s", 8080)] nan_payload (0.5 * nan)%float ValueError
                  Hp Hs He Ht Hl) Hc).
Defined.

(** One drift for two hosts. *)
Lemma sync_once_short_delays_witness :
  omap parse_host_port hosts = Ok endpoints /\
  result_of (get_vlc_status "m" 8080 VLC_PASSWORD two_players) = Ok master_payload /\
  extract_precise_time master_payload = Ok (Some 25%float) /\
  seek_target 25 0 = Ok 25 /\
  (Nat.max 1 (length [0%float]) < length endpoints)%nat /\
  result_of (sync_once hosts [0%float] 1 two_players) = Raise IndexError /\
  requests (trace_of (sync_once hosts [0%float] 1 two_players)) = [EvStatus "m" 8080].
Proof.
  assert (Hp : omap parse_host_port hosts = Ok (("m", 8080) :: [("s", 8080)]))
    by reflexivity.
  assert (Hs : result_of (get_vlc_status (fst ("m", 8080)) (snd ("m", 8080))
                            VLC_PASSWORD two_players) = Ok master_payload)
    by reflexivity.
  assert (He : extract_precise_time master_payload = Ok (Some 25%float))
    by (vm_compute; reflexivity).
  assert (Ht : seek_target 25 0 = Ok 25) by reflexivity.
  assert (Hl : (Nat.max 1 (length [0%float]) < length endpoints)%nat) by (cbn; lia).
  repeat (split; [assumption|]).
  exact (sync_once_short_delays hosts [0%float] 1 two_players ("m", 8080)
           [("s", 8080)] master_payload 25%float 25 Hp Hs He Ht Hl).
Defined.


(** The only slave cannot be reached: the state is all zeros again. *)
Lemma detect_delays_no_playback_resets_witness :
  let results := [(master_payload, 1000%float); (PNone, 1000%float)] in
  result_of (detect_delays hosts_dead two_players)
    = Ok (Some ([0; 0]%float, [1000; 1000]%float)) /\
  omap parse_host_port hosts_dead = Ok endpoints_dead /\
  result_of (poll_all endpoints_dead two_players) = Ok results /\
  first_run [0; 0]%float = true.
Proof.
  cbn zeta.
  assert (Hr : result_of (detect_delays hosts_dead two_players)
               = Ok (Some ([0; 0]%float, [1000; 1000]%float)))
    by (vm_compute; reflexivity).
  assert (Hp : omap parse_host_port hosts_dead = Ok endpoints_dead) by reflexivity.
  assert (Hq : result_of (poll_all endpoints_dead two_players)
               = Ok [(master_payload, 1000%float); (PNone, 1000%float)])
    by (vm_compute; reflexivity).
  repeat (split; [assumption|]).
  refine (proj1 (proj2 (detect_delays_no_playback_resets hosts_dead two_players
                          [0; 0]%float [1000; 1000]%float endpoints_dead
                          [(master_payload, 1000%float); (PNone, 1000%float)]
                          Hr Hp Hq _))).
  intros [|[|i]] status Hi Hst; [lia | | discriminate].
  cbn in Hst. injection Hst as <-. reflexivity.
Defined.

Lemma sync_once_master_only_witness :
  parse_host_port "m" = Ok ("m", 8080) /\
  seeks (trace_of (sync_once ["m"] [0%float] 1 two_players)) = [].
Proof.
  assert (Hp : parse_host_port "m" = Ok ("m", 8080)) by reflexivity.
  split; [exact Hp|].
  exact (proj1 (sync_once_master_only "m" ("m", 8080) [0%float] [0%float] 1
                  two_players Hp)).
Defined.

(** A slave that answers with a JSON array: the re-measure raises. *)
Lemma detect_delays_outcome_witness :
  let results := [(master_payload, 1000%float); (PList [PInt 20], 1000%float)] in
  omap parse_host_port hosts = Ok endpoints /\
  result_of (poll_all endpoints array_slave) = Ok results /\
  map fst results !! 0%nat = Some master_payload /\
  extract_precise_time master_payload = Ok (Some 25%float) /\
  result_of (detect_delays hosts array_slave) = Raise AttributeError.
Proof.
  cbn zeta.
  assert (Hp : omap parse_host_port hosts = Ok endpoints) by reflexivity.
  assert (Hq : result_of (poll_all endpoints array_slave)
               = Ok [(master_payload, 1000%float); (PList [PInt 20], 1000%float)])
    by (vm_compute; reflexivity).
  assert (H0 : map fst [(master_payload, 1000%float); (PList [PInt 20], 1000%float)]
               !! 0%nat = Some master_payload) by reflexivity.
  assert (He : extract_precise_time master_payload = Ok (Some 25%float))
    by (vm_compute; reflexivity).
  repeat (split; [assumption|]).
  apply (proj2 (proj2 (proj2 (detect_delays_outcome hosts array_slave endpoints
                                [(master_payload, 1000%float);
                                 (PList [PInt 20], 1000%float)]
                                master_payload Hp Hq H0)) 25%float He)).
  exists (PList [PInt 20]). split; [right; left; reflexivity | reflexivity].
Defined.

(** The players of [two_players] behave. *)
Lemma two_players_well_behaved : well_behaved plays_like_two_players.
Proof.
  constructor.
  - intros host port password w Hw. split; [exact Hw|].
    intros v Hv. cbn in Hv. unfold plays_like_two_players in Hw. rewrite Hw in Hv.
    cbn in Hv. destruct (String.eqb host "m").
    + injection Hv as <-. split; [reflexivity|].
      intros t Ht. vm_compute in Ht. injection Ht as <-. reflexivity.
    + destruct (String.eqb host "s"); [|discriminate].
      injection Hv as <-. split; [reflexivity|].
      intros t Ht. vm_compute in Ht. injection Ht as <-. reflexivity.
  - intros host port password val w Hw. exact Hw.
  - intros w Hw. exact Hw.
Qed.

Lemma sync_once_never_raises_witness :
  plays_like_two_players two_players /\
  hosts <> [] /\
  omap parse_host_port hosts = Ok endpoints /\
  (length hosts <= length [0; 0]%float)%nat /\
  exists delays',
    result_of (sync_once hosts [0; 0]%float 1 two_players) = Ok delays' /\
    (delays' = [0; 0]%float \/ length delays' = length hosts) /\
    plays_like_two_players (world_of (sync_once hosts [0; 0]%float 1 two_players)).
Proof.
  assert (Hg : plays_like_two_players two_players) by reflexivity.
  assert (Hn : hosts <> []) by discriminate.
  assert (Hp : omap parse_host_port hosts = Ok endpoints) by reflexivity.
  assert (Hl : (length hosts <= length [0; 0]%float)%nat) by (cbn; lia).
  repeat (split; [assumption|]).
  exact (sync_once_never_raises plays_like_two_players hosts endpoints [0; 0]%float 1
           two_players two_players_well_behaved Hg Hn Hp Hl).
Defined.

Lemma main_never_raises_witness :
  plays_like_two_players two_players /\
  hosts <> [] /\
  omap parse_host_port hosts = Ok endpoints /\
  exists delays, result_of (main hosts 1 (Some 5%float) 3 two_players) = Ok delays.
Proof.
  assert (Hg : plays_like_two_players two_players) by reflexivity.
  assert (Hn : hosts <> []) by discriminate.
  assert (Hp : omap parse_host_port hosts = Ok endpoints) by reflexivity.
  repeat (split; [assumption|]).
  apply (main_never_raises plays_like_two_players hosts endpoints 1 (Some 5%float) 3
           two_players two_players_well_behaved Hg Hn Hp).
  intros s w' Hs Hw'. injection Hs as <-. split; [reflexivity | exact Hw'].
Defined.

(** The first run on [two_players], split at the re-measure. *)
Lemma sync_once_ends_with_remeasure_witness :
  omap parse_host_port hosts = Ok endpoints /\
  result_of (get_vlc_status "m" 8080 VLC_PASSWORD two_players) = Ok master_payload /\
  extract_precise_time master_payload = Ok (Some 25%float) /\
  seek_target 25 0 = Ok 25 /\
  (length endpoints <= length [0; 0]%float)%nat /\
  exists before w2,
    trace_of (sync_once hosts [0; 0]%float 1 two_players)
      = before ++ trace_of (detect_delays hosts w2) /\
    requests before
      = status_request ("m", 8080)
        :: map (fun i => seek_request 25 (endpoint_at endpoints i))
               (corrected_slaves [0; 0]%float 1 (length endpoints)) /\
    result_of (sync_once hosts [0; 0]%float 1 two_players)
      = match result_of (detect_delays hosts w2) with
        | Ok (Some (new_delays, _)) => Ok new_delays
        | Ok None => Ok [0; 0]%float
        | Raise e => Raise e
        end.
Proof.
  assert (Hp : omap parse_host_port hosts = Ok (("m", 8080) :: [("s", 8080)]))
    by reflexivity.
  assert (Hs : result_of (get_vlc_status (fst ("m", 8080)) (snd ("m", 8080))
                            VLC_PASSWORD two_players) = Ok master_payload)
    by reflexivity.
  assert (He : extract_precise_time master_payload = Ok (Some 25%float))
    by (vm_compute; reflexivity).
  assert (Ht : seek_target 25 0 = Ok 25) by reflexivity.
  assert (Hl : (length endpoints <= length [0; 0]%float)%nat) by (cbn; lia).
  repeat (split; [assumption|]).
  exact (sync_once_ends_with_remeasure hosts [0; 0]%float 1 two_players ("m", 8080)
           [("s", 8080)] master_payload 25%float 25 Hp Hs He Ht Hl).
Defined.

Lemma main_first_cycle_corrects_all_witness :
  omap parse_host_port hosts = Ok endpoints /\
  result_of (get_vlc_status "m" 8080 VLC_PASSWORD two_players) = Ok master_payload /\
  extract_precise_time master_payload = Ok (Some 25%float) /\
  is_real 25 = true /\
  seeks (trace_of (main hosts 1000 None 0 two_players)) = [EvSeek "s" 8080 25].
Proof.
  assert (Hp : omap parse_host_port hosts = Ok (("m", 8080) :: [("s", 8080)]))
    by reflexivity.
  assert (Hs : result_of (get_vlc_status (fst ("m", 8080)) (snd ("m", 8080))
                            VLC_PASSWORD two_players) = Ok master_payload)
    by reflexivity.
  assert (He : extract_precise_time master_payload = Ok (Some 25%float))
    by (vm_compute; reflexivity).
  assert (Hr : is_real 25 = true) by reflexivity.
  repeat (split; [assumption|]).
  destruct (main_first_cycle_corrects_all hosts 1000 0 two_players ("m", 8080)
              [("s", 8080)] master_payload 25%float Hp Hs He Hr)
    as (target & Htarget & Hseeks & _).
  rewrite Hseeks. vm_compute in Htarget. injection Htarget as <-. reflexivity.
Defined.

Lemma extract_precise_time_ignores_other_fields_witness :
  "state" <> "position" /\ "state" <> "length" /\ "state" <> "time" /\
  extract_precise_time
    (PDict (<["state" := PStr "playing"]> (list_to_map [("time", PInt 42)])))
  = extract_precise_time (PDict (list_to_map [("time", PInt 42)])).
Proof.
  assert (H1 : "state" <> "position") by discriminate.
  assert (H2 : "state" <> "length") by discriminate.
  assert (H3 : "state" <> "time") by discriminate.
  repeat (split; [assumption|]).
  exact (proj1 (extract_precise_time_ignores_other_fields
                  (list_to_map [("time", PInt 42)]) "state" (PStr "playing")
                  H1 H2 H3)).
Defined.
